(** * thesis-assistant: the ingestion Dispatcher and its Extraction Worker

    A shallow embedding of [src/assets/workers/ingestWorker.js] (the Worker)
    and of the [Ingest] class (the Dispatcher), with the properties the
    specification states about them.

    JavaScript strings are sequences of UTF-16 code units, objects are
    finite maps from property names to values, thrown errors are carried by
    an error monad, and [postMessage] is a writer effect.  What the browser
    provides (fetch, the markup parser, the URL parser, the clock) is a
    record of oracles, [Env]. *)

From stdpp Require Import gmap strings list fin_maps.
From Stdlib Require Import ZArith NArith DecimalString.

Set Warnings "-register-all,-abstract-large-number".
Local Open Scope Z_scope.

(** ** JavaScript strings *)

(** A string is its list of UTF-16 code units. *)
Abbreviation jsstring := (list N).

(** A source literal made of ASCII characters. *)
Definition lit (s : string) : jsstring :=
  Ascii.N_of_ascii <$> String.list_ascii_of_string s.

(** Template-literal interpolation of a non-negative integer. *)
Definition decimal (n : N) : jsstring :=
  lit (NilEmpty.string_of_uint (N.to_uint n)).

Definition SPACE : N := 32%N.

(** The class [\s] of regular expressions, which is also what [trim] strips:
    WhiteSpace and LineTerminator of ECMAScript. *)
Definition is_ws (c : N) : bool :=
  ((9 <=? c) && (c <=? 13) || (c =? 32) || (c =? 160) || (c =? 5760)
   || (8192 <=? c) && (c <=? 8202) || (c =? 8232) || (c =? 8233)
   || (c =? 8239) || (c =? 8287) || (c =? 12288) || (c =? 65279))%N.

(** [s.replace(/\s+/g, ' ')]: every maximal run of whitespace is one match
    and is replaced by one space; [skip_ws] is the scan inside a match. *)
Fixpoint replace_ws (s : jsstring) : jsstring :=
  match s with
  | [] => []
  | c :: r => if is_ws c then SPACE :: skip_ws r else c :: replace_ws r
  end
with skip_ws (s : jsstring) : jsstring :=
  match s with
  | [] => []
  | c :: r => if is_ws c then skip_ws r else c :: replace_ws r
  end.

Fixpoint ltrim (s : jsstring) : jsstring :=
  match s with
  | [] => []
  | c :: r => if is_ws c then ltrim r else s
  end.

Definition rtrim (s : jsstring) : jsstring := rev (ltrim (rev s)).

(** [s.trim()] *)
Definition trim (s : jsstring) : jsstring := rtrim (ltrim s).

(** [s.substring(0, n)] for [n] within the non-negative integers. *)
Definition substring0 (n : nat) (s : jsstring) : jsstring := take n s.

(** [s.startsWith(p)] *)
Fixpoint startsWith (s p : jsstring) : bool :=
  match p, s with
  | [], _ => true
  | _ :: _, [] => false
  | a :: p', b :: s' => (a =? b)%N && startsWith s' p'
  end.

(** The empty string. *)
Definition empty_string : jsstring := [].

Definition nonempty (s : jsstring) : bool :=
  match s with [] => false | _ :: _ => true end.

(** [a || b] on strings: the empty string is the only falsy one. *)
Definition str_or (a b : jsstring) : jsstring := if nonempty a then a else b.

Definition jsstring_eqb (a b : jsstring) : bool := bool_decide (a = b).

Definition ascii_lower (c : N) : N :=
  if ((65 <=? c) && (c <=? 90))%N then (c + 32)%N else c.

Definition ascii_upper (c : N) : N :=
  if ((97 <=? c) && (c <=? 122))%N then (c - 32)%N else c.

(** ** Thrown values and completions *)

Record JsError := mkError { err_name : jsstring; err_message : jsstring }.

(** [new Error(message)] *)
Definition Error (message : jsstring) : JsError := mkError (lit "Error") message.

(** [String(error)], that is [Error.prototype.toString]. *)
Definition error_toString (e : JsError) : jsstring :=
  match err_name e, err_message e with
  | [], m => m
  | n, [] => n
  | n, m => n ++ lit ": " ++ m
  end.

Inductive Completion (A : Type) : Type :=
| Normal (a : A)
| Throw (e : JsError).
Arguments Normal {A} a.
Arguments Throw {A} e.

(** ** Values that cross the message boundary *)

Record File := mkFile {
  file_name : jsstring;
  file_size : Z;
  file_type : jsstring;
  file_lastModified : Z;
  (** what [await file.arrayBuffer()] gives: the bytes, or the rejection *)
  file_arrayBuffer : Completion (list N)
}.

Inductive JsVal : Type :=
| VUndefined
| VNull
| VBool (b : bool)
| VNum (n : Z)
| VStr (s : jsstring)
| VObj (fields : gmap string JsVal)
| VArr (items : list JsVal)
| VFile (f : File)
| VBuffer (bytes : list N)
| VError (e : JsError).

(** An object literal. *)
Definition obj (fields : list (string * JsVal)) : JsVal :=
  VObj (list_to_map fields).

(** ToBoolean *)
Definition truthy (v : JsVal) : bool :=
  match v with
  | VUndefined | VNull => false
  | VBool b => b
  | VNum n => negb (n =? 0)
  | VStr s => nonempty s
  | VObj _ | VArr _ | VFile _ | VBuffer _ | VError _ => true
  end.

(** [a || b] *)
Definition js_or (a b : JsVal) : JsVal := if truthy a then a else b.

(** [v === 'literal'] *)
Definition is_str (v : JsVal) (s : jsstring) : bool :=
  match v with VStr t => jsstring_eqb t s | _ => false end.

(** [typeof v === 'string'] *)
Definition typeof_string (v : JsVal) : bool :=
  match v with VStr _ => true | _ => false end.

Definition nullish (v : JsVal) : bool :=
  match v with VUndefined | VNull => true | _ => false end.

(** [v.k] on a value that is neither [null] nor [undefined]: an own
    property of a plain object, an attribute of a File, the name and the
    message of an error, and [undefined] for the property names the program
    reads on anything else. *)
Definition get (v : JsVal) (k : string) : JsVal :=
  match v with
  | VObj m => default VUndefined (m !! k)
  | VFile f =>
      if String.eqb k "name" then VStr (file_name f)
      else if String.eqb k "size" then VNum (file_size f)
      else if String.eqb k "type" then VStr (file_type f)
      else if String.eqb k "lastModified" then VNum (file_lastModified f)
      else VUndefined
  | VError e =>
      if String.eqb k "name" then VStr (err_name e)
      else if String.eqb k "message" then VStr (err_message e)
      else VUndefined
  | _ => VUndefined
  end.

(** ** The parsed markup document *)

Inductive Node : Type :=
| Text (data : jsstring)
| Comment (data : jsstring)
| Element (localName : jsstring) (attrs : list (jsstring * jsstring))
    (children : list Node).

Record Document := mkDocument {
  (** quirks mode: class and ID selectors then match case-insensitively *)
  doc_quirks : bool;
  doc_children : list Node
}.

(** The element and its element descendants, in tree (document) order. *)
Fixpoint elements_of (n : Node) : list Node :=
  match n with
  | Element _ _ cs => n :: concat (elements_of <$> cs)
  | Text _ | Comment _ => []
  end.

Definition document_elements (d : Document) : list Node :=
  concat (elements_of <$> doc_children d).

(** [node.textContent]: the data of the Text descendants, in tree order. *)
Fixpoint textContent (n : Node) : jsstring :=
  match n with
  | Text s => s
  | Comment _ => []
  | Element _ _ cs => concat (textContent <$> cs)
  end.

(** [element.innerText].  An element of a document that is not rendered
    (one made by a parser, outside any browsing context) has its
    [textContent] as its [innerText]. *)
Definition innerText (n : Node) : jsstring := textContent n.

Definition node_localName (n : Node) : jsstring :=
  match n with Element t _ _ => t | _ => [] end.

(** [element.tagName] of an HTML element: the name in ASCII upper case. *)
Definition tagName (n : Node) : jsstring := ascii_upper <$> node_localName n.

(** [s.toLowerCase()], on the ASCII strings tag names are. *)
Definition toLowerCase (s : jsstring) : jsstring := ascii_lower <$> s.

Fixpoint assoc (k : jsstring) (l : list (jsstring * jsstring)) : option jsstring :=
  match l with
  | [] => None
  | (k', v) :: r => if jsstring_eqb k' k then Some v else assoc k r
  end.

(** [element.getAttribute(name)], [None] for [null]. *)
Definition getAttribute (n : Node) (name : jsstring) : option jsstring :=
  match n with Element _ a _ => assoc name a | _ => None end.

(** ** Selectors *)

(** The selectors the program uses are type, class, ID and attribute
    selectors, compounded, and one selector list. *)
Inductive Simple : Type :=
| SelType (name : jsstring)                 (* name *)
| SelClass (name : jsstring)                (* .name *)
| SelId (name : jsstring)                   (* #name *)
| SelAttr (name : jsstring)                 (* [name] *)
| SelAttrEq (name value : jsstring).        (* [name="value"] *)

(** ASCII whitespace, which separates the tokens of a class attribute. *)
Definition is_ascii_ws (c : N) : bool :=
  ((c =? 9) || (c =? 10) || (c =? 12) || (c =? 13) || (c =? 32))%N.

(** The maximal runs of code units that are not separators. *)
Fixpoint tokens (sep : N → bool) (s : jsstring) : list jsstring :=
  match s with
  | [] => []
  | c :: r =>
      if sep c then tokens sep r
      else match r with
           | [] => [[c]]
           | c' :: _ =>
               if sep c' then [c] :: tokens sep r
               else match tokens sep r with
                    | w :: ws => (c :: w) :: ws
                    | [] => [[c]]
                    end
           end
  end.

(** Comparison of a class or an ID with the selector's. *)
Definition ident_eqb (quirks : bool) (a b : jsstring) : bool :=
  if quirks then jsstring_eqb (ascii_lower <$> a) (ascii_lower <$> b)
  else jsstring_eqb a b.

Definition matches_simple (quirks : bool) (n : Node) (s : Simple) : bool :=
  match n with
  | Element t a _ =>
      match s with
      | SelType name => jsstring_eqb t name
      | SelClass c =>
          match assoc (lit "class") a with
          | Some v => existsb (λ k, ident_eqb quirks k c) (tokens is_ascii_ws v)
          | None => false
          end
      | SelId i =>
          match assoc (lit "id") a with
          | Some v => ident_eqb quirks v i
          | None => false
          end
      | SelAttr name => bool_decide (is_Some (assoc name a))
      | SelAttrEq name value =>
          match assoc name a with
          | Some v => jsstring_eqb v value
          | None => false
          end
      end
  | Text _ | Comment _ => false
  end.

(** A compound selector is a conjunction, a selector list a disjunction. *)
Definition Selector : Type := list (list Simple).

Definition matches (quirks : bool) (sel : Selector) (n : Node) : bool :=
  existsb (λ compound, forallb (matches_simple quirks n) compound) sel.

(** [document.querySelectorAll(sel)]: the matching elements in tree order. *)
Definition querySelectorAll (d : Document) (sel : Selector) : list Node :=
  List.filter (matches (doc_quirks d) sel) (document_elements d).

(** [document.querySelector(sel)]: the first of them, [None] for [null]. *)
Definition querySelector (d : Document) (sel : Selector) : option Node :=
  head (querySelectorAll d sel).

Definition sel_type (name : string) : Selector := [[SelType (lit name)]].

(** ['title'] *)
Definition sel_title : Selector := sel_type "title".
(** ['meta[name="description"]'] *)
Definition sel_meta_description : Selector :=
  [[SelType (lit "meta"); SelAttrEq (lit "name") (lit "description")]].
(** ['a[href]'] *)
Definition sel_anchors : Selector := [[SelType (lit "a"); SelAttr (lit "href")]].
(** ['h1, h2, h3, h4, h5, h6'] *)
Definition sel_headings : Selector :=
  [[SelType (lit "h1")]; [SelType (lit "h2")]; [SelType (lit "h3")];
   [SelType (lit "h4")]; [SelType (lit "h5")]; [SelType (lit "h6")]].

(** The array [contentSelectors]. *)
Definition contentSelectors : list Selector :=
  [ sel_type "main";
    sel_type "article";
    [[SelClass (lit "content")]];
    [[SelId (lit "content")]];
    [[SelClass (lit "post-content")]];
    [[SelClass (lit "entry-content")]];
    sel_type "body" ].

(** ** The browser *)

Record Response := mkResponse {
  status : N;
  statusText : jsstring;
  (** what [await response.text()] gives *)
  text : Completion jsstring
}.

(** [response.ok]: the status is in the range 200 to 299. *)
Definition ok (r : Response) : bool := ((200 <=? status r) && (status r <=? 299))%N.

(** Errors the engine itself raises; their messages are the engine's. *)
Inductive Fault : Type :=
| DestructureNullish            (* const { ... } = undefined *)
| ReadOfNullish (k : string)    (* undefined.k *)
| NotAFunction (k : string).    (* v.k() where v.k is not callable *)

(** Each oracle gives what a call returns or throws and what an awaited
    promise settles to.  A promise that never settles, and a Worker that is
    terminated while it waits, have no counterpart here: such a run posts
    nothing more, so a statement that a message is posted has the outcome of
    every await on its path as a hypothesis, and the other statements are
    about the messages that are posted. *)
Record Env := mkEnv {
  (** [await fetch(url)]: the response, or the rejection *)
  fetch : JsVal → Completion Response;
  (** [new DOMParser().parseFromString(html, 'text/html')] *)
  parseFromString : jsstring → Completion Document;
  (** the [href] of an anchor of the document: its attribute, resolved *)
  resolve_href : Document → jsstring → jsstring;
  (** [new Date().toISOString()] and [Date.now()] *)
  now_ISO : jsstring;
  now : Z;
  (** [new Date(v).toISOString()], which throws on an invalid time value *)
  Date_toISOString : JsVal → Completion jsstring;
  (** [new URL(s)] returns rather than throws *)
  URL_parses : jsstring → bool;
  fault : Fault → JsError
}.

(** ** The Worker's monad: posted messages and a completion *)

Definition M (A : Type) : Type := list JsVal * Completion A.

Definition ret {A} (a : A) : M A := ([], Normal a).

Definition bind {A B} (m : M A) (k : A → M B) : M B :=
  match m with
  | (out, Normal a) => let '(out', r) := k a in (out ++ out', r)
  | (out, Throw e) => (out, Throw e)
  end.

Definition throw {A} (e : JsError) : M A := ([], Throw e).

(** [await p], and any expression that may throw. *)
Definition lift {A} (c : Completion A) : M A := ([], c).

Definition postMessage (m : JsVal) : M unit := ([m], Normal tt).

(** [try { body } catch (error) { handler }] *)
Definition try_catch {A} (body : M A) (handler : JsError → M A) : M A :=
  match body with
  | (out, Normal a) => (out, Normal a)
  | (out, Throw e) => let '(out', r) := handler e in (out ++ out', r)
  end.

Definition posted {A} (m : M A) : list JsVal := m.1.
Definition outcome {A} (m : M A) : Completion A := m.2.

#[export] Instance M_ret : MRet M := @ret.
#[export] Instance M_bind : MBind M := λ A B k m, bind m k.

(** [v.k]: reading a property of [null] or [undefined] throws. *)
Definition prop (env : Env) (v : JsVal) (k : string) : Completion JsVal :=
  if nullish v then Throw (fault env (ReadOfNullish k)) else Normal (get v k).

(** [v?.k] *)
Definition opt_prop (v : JsVal) (k : string) : JsVal :=
  if nullish v then VUndefined else get v k.

(** ** The Worker: [ingestWorker.js] *)

Section Worker.
Context (env : Env).

(** The text and the [href] of an anchor of the HTML namespace, whose [href]
    is the attribute resolved to a string. *)
Definition link_record (d : Document) (link : Node) : jsstring * jsstring :=
  (trim (textContent link),
   match getAttribute link (lit "href") with
   | Some v => resolve_href env d v
   | None => []
   end).

Definition heading_record (heading : Node) : jsstring * jsstring :=
  (toLowerCase (tagName heading), trim (textContent heading)).

(** The loop over [contentSelectors], which stops at the first match. *)
Fixpoint probe (d : Document) (selectors : list Selector) : jsstring :=
  match selectors with
  | [] => empty_string
  | selector :: rest =>
      match querySelector d selector with
      | Some element => str_or (textContent element) (str_or (innerText element) empty_string)
      | None => probe d rest
      end
  end.

(** The variable [bodyText] after the clean-up. *)
Definition bodyText_of (d : Document) : jsstring :=
  trim (replace_ws (probe d contentSelectors)).

Definition links_of (d : Document) : list (jsstring * jsstring) :=
  List.filter (λ link, nonempty link.1 && nonempty link.2)
    (link_record d <$> querySelectorAll d sel_anchors).

Definition headings_of (d : Document) : list (jsstring * jsstring) :=
  List.filter (λ heading, nonempty heading.2)
    (heading_record <$> querySelectorAll d sel_headings).

Definition link_val (l : jsstring * jsstring) : JsVal :=
  obj [("text", VStr l.1); ("href", VStr l.2)].

Definition heading_val (h : jsstring * jsstring) : JsVal :=
  obj [("level", VStr h.1); ("text", VStr h.2)].

(** The [data] of the success message of [handleHtmlFetch]. *)
Definition html_data (url : JsVal) (d : Document) : JsVal :=
  let title :=
    str_or (default empty_string (textContent <$> querySelector d sel_title))
           (lit "No title found") in
  let metaDescription :=
    str_or (default empty_string
              (querySelector d sel_meta_description ≫= λ m, getAttribute m (lit "content")))
           empty_string in
  let bodyText := bodyText_of d in
  let links := links_of d in
  let headings := headings_of d in
  obj [ ("url", url);
        ("title", VStr title);
        ("metaDescription", VStr metaDescription);
        ("bodyText", VStr (substring0 10000 bodyText));
        ("links", VArr (link_val <$> take 50 links));
        ("headings", VArr (heading_val <$> take 20 headings));
        ("contentLength", VNum (Z.of_nat (length bodyText)));
        ("fetchedAt", VStr (now_ISO env)) ].

Definition handleHtmlFetch (url : JsVal) : M unit :=
  try_catch
    (response ← lift (fetch env url);
     (if negb (ok response)
      then throw (Error (lit "HTTP " ++ decimal (status response) ++ lit ": "
                         ++ statusText response))
      else ret tt);;
     htmlContent ← lift (text response);
     document ← lift (parseFromString env htmlContent);
     postMessage (obj [ ("operation", VStr (lit "html"));
                        ("success", VBool true);
                        ("data", html_data url document) ]))
    (λ error,
     postMessage (obj [ ("operation", VStr (lit "html"));
                        ("success", VBool false);
                        ("error", VStr (lit "Failed to fetch/parse HTML: "
                                        ++ err_message error));
                        ("url", url) ])).

(** [await file.arrayBuffer()]: only a File has the method. *)
Definition arrayBuffer (file : JsVal) : Completion (list N) :=
  match file with
  | VFile f => file_arrayBuffer f
  | _ => Throw (fault env (NotAFunction "arrayBuffer"))
  end.

Definition simulatedContent : JsVal :=
  obj [ ("text", VStr (lit "PDF content extraction would be implemented here using PDF.js library"));
        ("pages", VStr (lit "Unknown"));
        ("author", VStr (lit "Unknown"));
        ("subject", VStr (lit "Unknown"));
        ("creator", VStr (lit "Unknown")) ].

Definition handlePdfParse (file : JsVal) : M unit :=
  try_catch
    (type ← lift (prop env file "type");
     (if negb (is_str type (lit "application/pdf"))
      then throw (Error (lit "File is not a PDF document"))
      else ret tt);;
     lastModified ← lift (Date_toISOString env (get file "lastModified"));
     let fileMetadata :=
       obj [ ("name", get file "name");
             ("size", get file "size");
             ("type", get file "type");
             ("lastModified", VStr lastModified) ] in
     uint8Array ← lift (arrayBuffer file);
     let pdfSignature := lit "%PDF" in
     let fileStart : jsstring := take 4 uint8Array in
     (if negb (startsWith fileStart pdfSignature)
      then throw (Error (lit "Invalid PDF file format"))
      else ret tt);;
     postMessage (obj [ ("operation", VStr (lit "pdf"));
                        ("success", VBool true);
                        ("data", obj [ ("metadata", fileMetadata);
                                       ("content", simulatedContent);
                                       ("extractedAt", VStr (now_ISO env));
                                       ("note", VStr (lit "PDF parsing requires PDF.js library integration for full functionality")) ]) ]))
    (λ error,
     postMessage (obj [ ("operation", VStr (lit "pdf"));
                        ("success", VBool false);
                        ("error", VStr (lit "Failed to parse PDF: "
                                        ++ err_message error));
                        ("filename", js_or (opt_prop file "name")
                                           (VStr (lit "unknown"))) ])).

(** The listener of ['message'], applied to [event.data]. *)
Definition on_message (data : JsVal) : M unit :=
  (if nullish data then throw (fault env DestructureNullish) else ret tt);;
  let operation := get data "operation" in
  let url := get data "url" in
  let file := get data "file" in
  try_catch
    (if is_str operation (lit "html") && truthy url then handleHtmlFetch url
     else if is_str operation (lit "pdf") && truthy file then handlePdfParse file
     else postMessage (obj [ ("success", VBool false);
                             ("error", VStr (lit "Invalid operation or missing data"));
                             ("operation", js_or operation (VStr (lit "unknown"))) ]))
    (λ error,
     postMessage (obj [ ("success", VBool false);
                        ("error", VStr (err_message error));
                        ("operation", js_or operation (VStr (lit "unknown"))) ])).

(** The listener of ['error']. *)
Definition on_error (message : jsstring) : M unit :=
  postMessage (obj [ ("success", VBool false);
                     ("error", VStr (lit "Worker error: " ++ message));
                     ("operation", VStr (lit "error")) ]).

(** The listener of ['unhandledrejection'], applied to [event.reason]. *)
Definition on_unhandledrejection (reason : JsError) : M unit :=
  postMessage (obj [ ("success", VBool false);
                     ("error", VStr (lit "Unhandled promise rejection: "
                                     ++ error_toString reason));
                     ("operation", VStr (lit "error")) ]).

(** One message handled by the Worker: the listener is an async function,
    so what it throws is an unhandled rejection of the global scope. *)
Definition worker_receive (data : JsVal) : list JsVal :=
  match on_message data with
  | (out, Normal _) => out
  | (out, Throw e) => out ++ posted (on_unhandledrejection e)
  end.

End Worker.

(** ** The Dispatcher: the class [Ingest] *)

(** A function of the host page, known by its identity. *)
Definition Callback : Type := nat.

Inductive Channel : Type := OnProgress | OnComplete | OnError.

Record Callbacks := mkCallbacks {
  onProgress : option Callback;
  onComplete : option Callback;
  onError : option Callback
}.

(** [this.worker] is [null] or the Worker made from the script. *)
Inductive WorkerRef : Type := IngestWorker.

Record Ingest := mkIngest {
  worker : option WorkerRef;
  isWorkerReady : bool;
  callbacks : Callbacks
}.

(** What a method of the Dispatcher does besides changing its fields. *)
Inductive Effect : Type :=
| WorkerPost (message : JsVal) (transfer : list JsVal)  (* this.worker.postMessage *)
| Invoke (c : Channel) (f : Callback) (data : JsVal)    (* this.callbacks[c](data) *)
| ReadBytes (f : File)                                  (* file.arrayBuffer() *)
| Console (level : string) (text : jsstring) (arg : JsVal)
| Terminate.                                            (* this.worker.terminate() *)

Definition no_callbacks : Callbacks := mkCallbacks None None None.

Definition callback_of (cs : Callbacks) (c : Channel) : option Callback :=
  match c with
  | OnProgress => onProgress cs
  | OnComplete => onComplete cs
  | OnError => onError cs
  end.

Definition triggerCallback (this : Ingest) (c : Channel) (data : JsVal) : list Effect :=
  match callback_of (callbacks this) c with
  | Some f => [Invoke c f data]
  | None => []
  end.

Definition not_ready : JsError :=
  Error (lit "Worker not ready. Please wait for initialization.").

Definition url_task (url : JsVal) (timestamp : Z) : JsVal :=
  obj [ ("type", VStr (lit "ingest_url"));
        ("payload", obj [ ("url", url); ("timestamp", VNum timestamp) ]) ].

Definition pdf_task (file : File) (arrayBuffer : list N) (timestamp : Z) : JsVal :=
  obj [ ("type", VStr (lit "ingest_pdf"));
        ("payload", obj [ ("fileName", VStr (file_name file));
                          ("fileSize", VNum (file_size file));
                          ("fileData", VBuffer arrayBuffer);
                          ("timestamp", VNum timestamp) ]) ].

Section Dispatcher.
Context (env : Env).

(** The constructor, with [initializeWorker]; [created] is what
    [new Worker(...)] does. *)
Definition new_Ingest (created : Completion unit) : Ingest * list Effect :=
  let this := mkIngest None false no_callbacks in
  match created with
  | Normal _ =>
      (mkIngest (Some IngestWorker) false no_callbacks,
       [WorkerPost (obj [("type", VStr (lit "init"))]) []])
  | Throw error =>
      (this,
       Console "error" (lit "Failed to initialize worker:") (VError error)
       :: triggerCallback this OnError
            (obj [ ("type", VStr (lit "worker_init_error"));
                   ("message", VStr (lit "Could not load web worker"));
                   ("error", VError error) ]))
  end.

(** [this.worker.onerror] *)
Definition worker_onerror (this : Ingest) (error : JsVal) : list Effect :=
  Console "error" (lit "Worker error:") error
  :: triggerCallback this OnError
       (obj [ ("type", VStr (lit "worker_error"));
              ("message", VStr (lit "Web worker initialization failed"));
              ("error", error) ]).

Definition handleWorkerMessage (this : Ingest) (data : JsVal)
  : Ingest * list Effect * Completion unit :=
  if nullish data then (this, [], Throw (fault env DestructureNullish))
  else
    let type := get data "type" in
    let payload := get data "payload" in
    if is_str type (lit "worker_ready") then
      (mkIngest (worker this) true (callbacks this),
       [Console "log" (lit "Ingest worker ready") VUndefined], Normal tt)
    else if is_str type (lit "progress") then
      (this, triggerCallback this OnProgress payload, Normal tt)
    else if is_str type (lit "ingest_complete") then
      (this, triggerCallback this OnComplete payload, Normal tt)
    else if is_str type (lit "error") then
      (this, triggerCallback this OnError payload, Normal tt)
    else
      (this, [Console "warn" (lit "Unknown worker message type:") type], Normal tt).

(** The arguments are the three properties of the object passed, [None]
    for one that is absent or falsy. *)
Definition setCallbacks (this : Ingest) (p c e : option Callback) : Ingest :=
  let cs := callbacks this in
  mkIngest (worker this) (isWorkerReady this)
    (mkCallbacks (from_option Some (onProgress cs) p)
                 (from_option Some (onComplete cs) c)
                 (from_option Some (onError cs) e)).

(** [this.worker.postMessage(message, transfer)] *)
Definition worker_postMessage (this : Ingest) (message : JsVal) (transfer : list JsVal)
  : list Effect * Completion unit :=
  match worker this with
  | Some _ => ([WorkerPost message transfer], Normal tt)
  | None => ([], Throw (fault env (ReadOfNullish "postMessage")))
  end.

Definition ingestURL (this : Ingest) (url : JsVal) : list Effect * Completion JsVal :=
  if negb (isWorkerReady this) then ([], Throw not_ready)
  else if negb (truthy url) || negb (typeof_string url)
  then ([], Throw (Error (lit "Invalid URL provided")))
  else match url with
       | VStr s =>
           if negb (URL_parses env s)
           then ([], Throw (Error (lit "Invalid URL format")))
           else
             match worker_postMessage this (url_task url (now env)) [] with
             | (out, Normal _) =>
                 (out, Normal (obj [ ("status", VStr (lit "processing"));
                                     ("url", url) ]))
             | (out, Throw e) => (out, Throw e)
             end
       | _ => ([], Throw (Error (lit "Invalid URL provided")))
       end.

(** [ingestPDF] up to its [await]: the checks, which leave the file whose
    bytes are to be read. *)
Definition ingestPDF_check (this : Ingest) (file : JsVal) : Completion File :=
  if negb (isWorkerReady this) then Throw not_ready
  else match file with
       | VFile f =>
           if negb (jsstring_eqb (file_type f) (lit "application/pdf"))
           then Throw (Error (lit "File must be a PDF"))
           else Normal f
       | _ => Throw (Error (lit "Invalid file provided"))
       end.

(** [ingestPDF] from its [await] on: [this] is the Dispatcher as it is
    when the read completes. *)
Definition ingestPDF_resume (this : Ingest) (f : File) : list Effect * Completion JsVal :=
  let wrap (error : JsError) : JsError :=
    Error (lit "Failed to read PDF file: " ++ err_message error) in
  match file_arrayBuffer f with
  | Throw error => ([], Throw (wrap error))
  | Normal arrayBuffer =>
      match worker_postMessage this (pdf_task f arrayBuffer (now env))
              [VBuffer arrayBuffer] with
      | (out, Normal _) =>
          (out, Normal (obj [ ("status", VStr (lit "processing"));
                              ("fileName", VStr (file_name f));
                              ("fileSize", VNum (file_size f)) ]))
      | (out, Throw error) => (out, Throw (wrap error))
      end
  end.

(** [ingestPDF] when nothing happens to the Dispatcher during the read. *)
Definition ingestPDF (this : Ingest) (file : JsVal) : list Effect * Completion JsVal :=
  match ingestPDF_check this file with
  | Throw e => ([], Throw e)
  | Normal f =>
      let '(out, r) := ingestPDF_resume this f in (ReadBytes f :: out, r)
  end.

Definition getStatus (this : Ingest) : JsVal :=
  let has (c : option Callback) := VBool (bool_decide (is_Some c)) in
  obj [ ("workerReady", VBool (isWorkerReady this));
        ("hasCallbacks", obj [ ("onProgress", has (onProgress (callbacks this)));
                               ("onComplete", has (onComplete (callbacks this)));
                               ("onError", has (onError (callbacks this))) ]) ].

Definition destroy (this : Ingest) : Ingest * list Effect :=
  (mkIngest None false no_callbacks,
   match worker this with Some _ => [Terminate] | None => [] end).

End Dispatcher.

(** ** The Dispatcher and the Worker together *)

Record System := mkSystem {
  disp : Ingest;
  (** posted to the Worker and not yet handled by it *)
  inbox : list JsVal;
  (** posted by the Worker and not yet delivered to the Dispatcher *)
  outbox : list JsVal;
  (** files whose bytes an [ingestPDF] waits for *)
  reading : list File;
  (** everything the Dispatcher did, oldest first *)
  trace : list Effect
}.

(** The messages among the effects of a method, in order. *)
Definition posts (es : list Effect) : list JsVal :=
  omap (λ e, match e with WorkerPost m _ => Some m | _ => None end) es.

Definition initial (created : Completion unit) : System :=
  mkSystem (new_Ingest created).1 (posts (new_Ingest created).2) [] []
    (new_Ingest created).2.

Inductive step : System → System → Prop :=
| step_ingestURL env s url :
    step s (mkSystem (disp s)
              (inbox s ++ posts (ingestURL env (disp s) url).1)
              (outbox s) (reading s)
              (trace s ++ (ingestURL env (disp s) url).1))
| step_ingestPDF_await s file f :
    ingestPDF_check (disp s) file = Normal f →
    step s (mkSystem (disp s) (inbox s) (outbox s) (reading s ++ [f])
              (trace s ++ [ReadBytes f]))
| step_ingestPDF_reject s file e :
    ingestPDF_check (disp s) file = Throw e →
    step s s
| step_ingestPDF_resume env s f before after :
    reading s = before ++ f :: after →
    step s (mkSystem (disp s)
              (inbox s ++ posts (ingestPDF_resume env (disp s) f).1)
              (outbox s) (before ++ after)
              (trace s ++ (ingestPDF_resume env (disp s) f).1))
| step_setCallbacks s p c e :
    step s (mkSystem (setCallbacks (disp s) p c e) (inbox s) (outbox s)
              (reading s) (trace s))
| step_destroy s :
    step s (mkSystem (destroy (disp s)).1 [] [] (reading s)
              (trace s ++ (destroy (disp s)).2))
| step_worker_message env s w data rest :
    worker (disp s) = Some w →
    inbox s = data :: rest →
    step s (mkSystem (disp s) rest (outbox s ++ worker_receive env data)
              (reading s) (trace s))
| step_worker_fault s w message :
    worker (disp s) = Some w →
    step s (mkSystem (disp s) (inbox s) (outbox s ++ posted (on_error message))
              (reading s) (trace s))
| step_worker_onerror s w error :
    worker (disp s) = Some w →
    step s (mkSystem (disp s) (inbox s) (outbox s) (reading s)
              (trace s ++ worker_onerror (disp s) error))
| step_deliver env s w data rest :
    worker (disp s) = Some w →
    outbox s = data :: rest →
    step s (mkSystem (handleWorkerMessage env (disp s) data).1.1 (inbox s) rest
              (reading s)
              (trace s ++ (handleWorkerMessage env (disp s) data).1.2)).

Inductive reachable : System → Prop :=
| reachable_initial created : reachable (initial created)
| reachable_step s s' : reachable s → step s s' → reachable s'.

(** ** Whitespace normalisation, as the specification words it *)

(** The words with the separator between each two of them. *)
Fixpoint join (sep : N) (ws : list jsstring) : jsstring :=
  match ws with
  | [] => []
  | w :: rest =>
      match rest with
      | [] => w
      | _ :: _ => w ++ sep :: join sep rest
      end
  end.

(** The runs of characters that are not whitespace, in their order, with one
    space between two of them and nothing before the first or after the
    last. *)
Definition normalize_space (s : jsstring) : jsstring :=
  join SPACE (tokens is_ws s).

(** ** Notions the properties are stated with *)


(** [hay.includes(needle)] as a proposition. *)
Definition includes (needle hay : jsstring) : Prop :=
  ∃ before after, hay = before ++ needle ++ after.

(** The success and the failure message of the URL operation. *)
Definition html_success (data : JsVal) : JsVal :=
  obj [ ("operation", VStr (lit "html")); ("success", VBool true); ("data", data) ].

Definition html_failure (message : jsstring) (url : JsVal) : JsVal :=
  obj [ ("operation", VStr (lit "html")); ("success", VBool false);
        ("error", VStr (lit "Failed to fetch/parse HTML: " ++ message));
        ("url", url) ].

Definition pdf_failure (message : jsstring) (file : JsVal) : JsVal :=
  obj [ ("operation", VStr (lit "pdf")); ("success", VBool false);
        ("error", VStr (lit "Failed to parse PDF: " ++ message));
        ("filename", js_or (opt_prop file "name") (VStr (lit "unknown"))) ].

Definition pdf_success (data : JsVal) : JsVal :=
  obj [ ("operation", VStr (lit "pdf")); ("success", VBool true); ("data", data) ].

(** The reply of the listener's last branch. *)
Definition invalid_operation (operation : JsVal) : JsVal :=
  obj [ ("success", VBool false);
        ("error", VStr (lit "Invalid operation or missing data"));
        ("operation", js_or operation (VStr (lit "unknown"))) ].

(** A message without the property the Dispatcher switches on. *)
Definition untyped (m : JsVal) : Prop := get m "type" = VUndefined.

(** An effect that is not a call of [onComplete] or of [onProgress]. *)
Definition quiet (e : Effect) : Prop :=
  match e with
  | Invoke OnComplete _ _ | Invoke OnProgress _ _ => False
  | _ => True
  end.

(** What holds of every reachable state: the flag is down, no message on its
    way to the Dispatcher has a [type], and neither [onComplete] nor
    [onProgress] has been called. *)
Record Inv (s : System) : Prop := mkInv {
  inv_not_ready : isWorkerReady (disp s) = false;
  inv_outbox : Forall untyped (outbox s);
  inv_trace : Forall quiet (trace s)
}.





(** The errors the specification calls invalid input: a malformed URL, an
    argument that is not a File, a declared type that is not PDF. *)
Definition invalid_input (e : JsError) : bool :=
  bool_decide (err_message e ∈ [ lit "Invalid URL provided"; lit "Invalid URL format";
                                 lit "Invalid file provided"; lit "File must be a PDF" ]).

(** The Worker has handled the readiness probe and its reply has been
    delivered. *)
Definition probed (env : Env) : System :=
  let s := initial (Normal tt) in
  let reply := invalid_operation VUndefined in
  mkSystem (handleWorkerMessage env (disp s) reply).1.1 [] [] []
    (trace s ++ (handleWorkerMessage env (disp s) reply).1.2).

(** The readiness probe the constructor posts. *)
Definition init_probe : JsVal := obj [("type", VStr (lit "init"))].

(** The message type that [handleWorkerMessage] relays to a channel. *)
Definition channel_type (c : Channel) : jsstring :=
  match c with
  | OnProgress => lit "progress"
  | OnComplete => lit "ingest_complete"
  | OnError => lit "error"
  end.

(** What a reachable state never holds: a task for the Worker, a result
    from it, a pending read, and any effect but the probe, the logs, the
    termination and the calls of [onError] for a fault of the Worker. *)
Definition idle_effect (e : Effect) : Prop :=
  match e with
  | WorkerPost m _ => m = init_probe
  | Invoke c _ data => c = OnError ∧ get data "type" = VStr (lit "worker_error")
  | ReadBytes _ => False
  | Console _ _ _ | Terminate => True
  end.

Record Idle (s : System) : Prop := mkIdle {
  idle_inbox : Forall (λ m, m = init_probe) (inbox s);
  idle_outbox : Forall (λ m, get m "success" = VBool false) (outbox s);
  idle_reading : reading s = [];
  idle_trace : Forall idle_effect (trace s)
}.

(** ** Fixtures *)

Module Fixture.

Definition iso_epoch : jsstring := lit "1970-01-01T00:00:00.000Z".

(** A time value is valid up to 8.64e15 milliseconds from the epoch. *)
Definition date (v : JsVal) : Completion jsstring :=
  match v with
  | VNum t =>
      if Z.abs t <=? 8640000000000000 then Normal iso_epoch
      else Throw (mkError (lit "RangeError") (lit "Invalid time value"))
  | _ => Throw (mkError (lit "RangeError") (lit "Invalid time value"))
  end.

Definition engine (f : Fault) : JsError :=
  mkError (lit "TypeError")
    match f with
    | DestructureNullish => lit "Cannot destructure"
    | ReadOfNullish _ => lit "Cannot read properties"
    | NotAFunction _ => lit "is not a function"
    end.

(** A browser whose every fetch gives [response] and whose parser gives
    [document]. *)
Definition browser (response : Completion Response) (document : Completion Document) : Env :=
  {| fetch := λ _, response;
     parseFromString := λ _, document;
     resolve_href := λ _ href, lit "https://example.org/" ++ href;
     now_ISO := iso_epoch;
     now := 0;
     Date_toISOString := date;
     URL_parses := λ s, startsWith s (lit "https://");
     fault := engine |}.

Definition page (body : list Node) : Document :=
  mkDocument false
    [Element (lit "html") []
       [Element (lit "head") [] [Element (lit "title") [] [Text (lit "Sample")]];
        Element (lit "body") [] body]].

Definition ok_response : Response :=
  mkResponse 200 (lit "OK") (Normal (lit "<html>")).

Definition served (d : Document) : Env :=
  browser (Normal ok_response) (Normal d).

Definition not_found : Response :=
  mkResponse 404 (lit "Not Found") (Normal (lit "<html>")).

Definition address : JsVal := VStr (lit "https://example.org/paper").


Definition anchor (href text : string) : Node :=
  Element (lit "a") [(lit "href", lit href)] [Text (lit text)].

Definition heading (level text : string) : Node :=
  Element (lit level) [] [Text (lit text)].

(** 60 anchors and 25 headings that qualify, among some that do not. *)
Definition outline : Document :=
  page ([anchor "/empty" "  "; Element (lit "a") [] [Text (lit "no target")]]
        ++ replicate 30 (anchor "/a" "first")
        ++ [heading "h1" " "; heading "h7" "not a heading"]
        ++ replicate 25 (heading "h2" "Section")
        ++ replicate 30 (anchor "/b" "second")).

Definition ready : Ingest := mkIngest (Some IngestWorker) true no_callbacks.

Definition fresh : Ingest := (new_Ingest (Normal tt)).1.

Definition pdf_bytes : list N := [37; 80; 68; 70; 45; 49; 46; 52]%N.

Definition notes_txt : File :=
  mkFile (lit "notes.txt") 4 (lit "text/plain") 0 (Normal [110; 111; 116; 101]%N).

Definition fake_pdf : File :=
  mkFile (lit "fake.pdf") 4 (lit "application/pdf") 0 (Normal [110; 111; 116; 101]%N).

(** A Dispatcher with its three callbacks registered. *)
Definition listening : Ingest :=
  mkIngest (Some IngestWorker) true (mkCallbacks (Some 1%nat) (Some 2%nat) (Some 3%nat)).

Definition paper : File :=
  mkFile (lit "paper.pdf") 8 (lit "application/pdf") 0 (Normal pdf_bytes).

(** The same descriptor over other bytes after the signature. *)
Definition paper_revised : File :=
  mkFile (lit "paper.pdf") 8 (lit "application/pdf") 0
    (Normal [37; 80; 68; 70; 45; 50; 46; 48]%N).

Definition unreadable : File :=
  mkFile empty_string 8 (lit "application/pdf") 0
    (Throw (mkError (lit "NotReadableError") (lit "The file could not be read"))).

(** A browser whose network is down. *)
Definition offline : Env :=
  browser (Throw (mkError (lit "TypeError") (lit "Failed to fetch"))) (Normal (page [])).

End Fixture.

(** ** Whitespace normalisation: the source against the specification *)

Example is_ws_sample :
  is_ws 9 = true ∧ is_ws 160 = true ∧ is_ws 8232 = true ∧ is_ws 97 = false
  ∧ is_ws 8203 = false.
Proof. by repeat split. Qed.

Example replace_ws_sample :
  replace_ws (lit "  a " ++ 9%N :: 10%N :: lit "b  c ") = lit " a b c ".
Proof. reflexivity. Qed.

Example trim_sample : trim (lit " a b c ") = lit "a b c".
Proof. reflexivity. Qed.

Example tokens_sample :
  tokens is_ws (lit "  a " ++ 9%N :: 10%N :: lit "bc  d ") = [lit "a"; lit "bc"; lit "d"].
Proof. reflexivity. Qed.

Example normalize_space_sample :
  normalize_space (lit "  a " ++ 9%N :: 10%N :: lit "bc  d ") = lit "a bc d".
Proof. reflexivity. Qed.

Lemma ltrim_snoc (a : jsstring) (c : N) :
  ltrim (a ++ [c]) =
  match ltrim a with
  | [] => if is_ws c then [] else [c]
  | l => l ++ [c]
  end.
Proof.
  induction a as [|x a IH]; simpl.
  - destruct (is_ws c); reflexivity.
  - destruct (is_ws x); [exact IH | reflexivity].
Qed.

Lemma rtrim_cons (c : N) (t : jsstring) :
  rtrim (c :: t) =
  match rtrim t with
  | [] => if is_ws c then [] else [c]
  | l => c :: l
  end.
Proof.
  unfold rtrim. simpl rev. rewrite ltrim_snoc.
  destruct (ltrim (rev t)) as [|x l] eqn:E.
  - simpl. destruct (is_ws c); reflexivity.
  - rewrite rev_app_distr. simpl.
    destruct (rev l ++ [x]) eqn:E'; [by destruct (rev l) | reflexivity].
Qed.

Lemma tokens_head (c : N) (r : jsstring) :
  is_ws c = false → tokens is_ws (c :: r) ≠ [].
Proof.
  intros Hc. simpl. rewrite Hc.
  destruct r as [|c' r']; [done|].
  destruct (is_ws c'); [done|].
  destruct (tokens is_ws (c' :: r')); done.
Qed.

Lemma join_cons_char (c : N) (w : jsstring) (ws : list jsstring) :
  join SPACE ((c :: w) :: ws) = c :: join SPACE (w :: ws).
Proof. simpl. destruct ws; reflexivity. Qed.

Lemma tokens_not_nil (sep : N → bool) (s : jsstring) :
  Forall (λ w, w ≠ []) (tokens sep s).
Proof.
  induction s as [|c r IH]; simpl; [constructor|].
  destruct (sep c); [exact IH|].
  destruct r as [|c' r']; [by repeat constructor|].
  destruct (sep c'); [by constructor|].
  destruct (tokens sep (c' :: r')) as [|w ws]; [by repeat constructor|].
  inversion IH; subst. by constructor.
Qed.

Lemma join_nil (ws : list jsstring) :
  Forall (λ w, w ≠ []) ws → join SPACE ws = [] → ws = [].
Proof.
  intros H. destruct ws as [|w rest]; [done|].
  inversion H as [|? ? Hw _]; subst. simpl.
  destruct rest; [done|]. by destruct w.
Qed.

(** The scan of the regular expression against the words of the text. *)
Lemma rtrim_scan (s : jsstring) :
  rtrim (skip_ws s) = normalize_space s ∧
  rtrim (replace_ws s) =
    match s with
    | c :: _ =>
        if is_ws c
        then match tokens is_ws s with
             | [] => []
             | _ :: _ => SPACE :: normalize_space s
             end
        else normalize_space s
    | [] => []
    end.
Proof.
  unfold normalize_space.
  induction s as [|c r [IHs IHr]]; [done|].
  assert (Hn := join_nil (tokens is_ws r) (tokens_not_nil _ _)).
  simpl skip_ws; simpl replace_ws.
  destruct (is_ws c) eqn:Hc.
  - assert (Ht : tokens is_ws (c :: r) = tokens is_ws r) by (simpl; by rewrite Hc).
    rewrite Ht. split; [exact IHs|].
    rewrite rtrim_cons, IHs.
    destruct (tokens is_ws r) as [|w ws] eqn:E; [done|].
    destruct (join SPACE (w :: ws)) eqn:E'; [by specialize (Hn eq_refl)|done].
  - assert (rtrim (c :: replace_ws r) = join SPACE (tokens is_ws (c :: r))) as ->; [|done].
    rewrite rtrim_cons, IHr.
    destruct r as [|c' r']; [by simpl; rewrite Hc|].
    change (tokens is_ws (c :: c' :: r')) with
      (if is_ws c then tokens is_ws (c' :: r')
       else if is_ws c' then [c] :: tokens is_ws (c' :: r')
            else match tokens is_ws (c' :: r') with
                 | w :: ws => (c :: w) :: ws
                 | [] => [[c]]
                 end).
    rewrite Hc.
    destruct (is_ws c') eqn:Hc'.
    + destruct (tokens is_ws (c' :: r')) as [|w ws]; [done|].
      simpl. reflexivity.
    + pose proof (tokens_head c' r' Hc') as Hne.
      destruct (tokens is_ws (c' :: r')) as [|w ws]; [done|].
      rewrite join_cons_char.
      destruct (join SPACE (w :: ws)) eqn:E'; [by specialize (Hn eq_refl)|done].
Qed.

Lemma ltrim_replace_ws (s : jsstring) : ltrim (replace_ws s) = skip_ws s.
Proof.
  assert (H : ∀ t, ltrim (skip_ws t) = skip_ws t ∧
                   (match t with c :: _ => is_ws c = false | [] => True end →
                    ltrim (replace_ws t) = replace_ws t)).
  { induction t as [|c r [IH1 IH2]]; [done|]. simpl.
    destruct (is_ws c) eqn:Hc; [by split|].
    simpl. rewrite Hc. by split. }
  destruct s as [|c r]; [done|]. simpl.
  destruct (is_ws c) eqn:Hc.
  - change (is_ws SPACE) with true. simpl. apply H.
  - simpl. by rewrite Hc.
Qed.

(** The clean-up of the source against the specification's wording. *)
Lemma clean_normalize (s : jsstring) :
  trim (replace_ws s) = normalize_space s.
Proof. unfold trim. rewrite ltrim_replace_ws. apply rtrim_scan. Qed.

(** ** Reading the messages *)

Lemma includes_app_r (needle a b : jsstring) :
  includes needle b → includes needle (a ++ b).
Proof. intros (x & y & ->). exists (a ++ x), y. by rewrite <- app_assoc. Qed.

Lemma includes_app_l (needle a b : jsstring) :
  includes needle a → includes needle (a ++ b).
Proof. intros (x & y & ->). exists x, (y ++ b). by rewrite <- !app_assoc. Qed.

Lemma includes_refl (s : jsstring) : includes s s.
Proof. exists [], []. by rewrite app_nil_r. Qed.

Lemma startsWith_take (s p : jsstring) :
  startsWith s p = true ↔ take (length p) s = p.
Proof.
  revert s. induction p as [|a p IH]; intros s.
  - by destruct s.
  - destruct s as [|b s]; simpl; [done|].
    rewrite andb_true_iff, N.eqb_eq, IH. split.
    + by intros [-> ->].
    + intros [= -> Hp]. by rewrite Hp.
Qed.


Section WorkerFacts.
Context (env : Env).


Lemma handleHtmlFetch_status url r :
  fetch env url = Normal r → ok r = false →
  handleHtmlFetch env url =
  ([html_failure (lit "HTTP " ++ decimal (status r) ++ lit ": " ++ statusText r) url],
   Normal tt).
Proof.
  intros Hf Hok. unfold handleHtmlFetch.
  rewrite Hf. simpl. rewrite Hok. reflexivity.
Qed.

(** The URL operation posts one message whatever happens, and lets no
    exception out. *)
Lemma handleHtmlFetch_total url :
  ∃ m, handleHtmlFetch env url = ([m], Normal tt) ∧
       ((∃ data, m = html_success data) ∨ (∃ message, m = html_failure message url)).
Proof.
  unfold handleHtmlFetch.
  destruct (fetch env url) as [r|e] eqn:Hf; simpl.
  2: { eexists; split; [reflexivity|]. right. by eexists. }
  destruct (ok r) eqn:Hok; simpl.
  2: { eexists; split; [reflexivity|]. right. by eexists. }
  destruct (text r) as [html|e] eqn:Ht; simpl.
  2: { eexists; split; [reflexivity|]. right. by eexists. }
  destruct (parseFromString env html) as [d|e] eqn:Hp; simpl.
  - eexists; split; [reflexivity|]. left. by eexists.
  - eexists; split; [reflexivity|]. right. by eexists.
Qed.

End WorkerFacts.

Section ListenerFacts.
Context (env : Env).

Lemma handlePdfParse_total file :
  ∃ m, handlePdfParse env file = ([m], Normal tt) ∧
       ((∃ data, m = pdf_success data) ∨ (∃ message, m = pdf_failure message file)).
Proof.
  unfold handlePdfParse, prop.
  destruct (nullish file) eqn:Hn; simpl.
  { eexists; split; [reflexivity|]. right. by eexists. }
  destruct (is_str (get file "type") (lit "application/pdf")) eqn:Ht; simpl.
  2: { eexists; split; [reflexivity|]. right. by eexists. }
  destruct (Date_toISOString env (get file "lastModified")) as [iso|e] eqn:Hd; simpl.
  2: { eexists; split; [reflexivity|]. right. by eexists. }
  destruct (arrayBuffer env file) as [bytes|e] eqn:Hb; simpl.
  2: { eexists; split; [reflexivity|]. right. by eexists. }
  destruct (startsWith (take 4 bytes) (lit "%PDF")) eqn:Hs; simpl.
  - eexists; split; [reflexivity|]. left. by eexists.
  - eexists; split; [reflexivity|]. right. by eexists.
Qed.

(** No message the Worker posts has a [type]. *)
Lemma worker_receive_untyped data m :
  m ∈ worker_receive env data → untyped m.
Proof.
  unfold worker_receive, on_message.
  destruct (nullish data) eqn:Hn; simpl.
  { intros ->%list_elem_of_singleton. reflexivity. }
  destruct (is_str (get data "operation") (lit "html") && truthy (get data "url")).
  { destruct (handleHtmlFetch_total env (get data "url")) as (m' & -> & H). simpl.
    intros ->%list_elem_of_singleton.
    destruct H as [[d ->]|[msg ->]]; reflexivity. }
  destruct (is_str (get data "operation") (lit "pdf") && truthy (get data "file")).
  { destruct (handlePdfParse_total (get data "file")) as (m' & -> & H). simpl.
    intros ->%list_elem_of_singleton.
    destruct H as [[d ->]|[msg ->]]; reflexivity. }
  simpl. intros ->%list_elem_of_singleton. reflexivity.
Qed.

Lemma on_error_untyped message m : m ∈ posted (on_error message) → untyped m.
Proof. intros ->%list_elem_of_singleton. reflexivity. Qed.

(** A message without a [type] falls to the [default] of the switch. *)
Lemma handleWorkerMessage_untyped this data :
  untyped data → nullish data = false →
  handleWorkerMessage env this data =
  (this, [Console "warn" (lit "Unknown worker message type:") VUndefined], Normal tt).
Proof.
  unfold untyped, handleWorkerMessage. intros -> ->. reflexivity.
Qed.

End ListenerFacts.

(** ** The invariant of the composed system *)

Lemma handleWorkerMessage_untyped_step env this data :
  untyped data →
  (handleWorkerMessage env this data).1.1 = this ∧
  Forall quiet (handleWorkerMessage env this data).1.2.
Proof.
  intros Hu. destruct (nullish data) eqn:Hn.
  - unfold handleWorkerMessage. rewrite Hn. by split.
  - rewrite handleWorkerMessage_untyped by done. by split; [|repeat constructor].
Qed.

Lemma ingestURL_not_ready env this url :
  isWorkerReady this = false → ingestURL env this url = ([], Throw not_ready).
Proof. unfold ingestURL. by intros ->. Qed.

Lemma ingestPDF_check_not_ready this file :
  isWorkerReady this = false → ingestPDF_check this file = Throw not_ready.
Proof. unfold ingestPDF_check. by intros ->. Qed.

Lemma ingestPDF_resume_quiet env this f :
  Forall quiet (ingestPDF_resume env this f).1.
Proof.
  unfold ingestPDF_resume, worker_postMessage.
  destruct (file_arrayBuffer f); [|by constructor].
  destruct (worker this); by repeat constructor.
Qed.

Lemma triggerCallback_OnError_quiet this data :
  Forall quiet (triggerCallback this OnError data).
Proof. unfold triggerCallback. destruct (callback_of _ _); by repeat constructor. Qed.

Lemma Inv_initial created : Inv (initial created).
Proof.
  destruct created as [[]|e]; split; simpl; try done.
  - by repeat constructor.
  - by repeat constructor.
Qed.

Lemma Inv_step s s' : Inv s → step s s' → Inv s'.
Proof.
  intros [Hr Ho Ht] Hstep.
  destruct Hstep; split; simpl; try done.
  - rewrite ingestURL_not_ready by done. simpl. by rewrite app_nil_r.
  - apply Forall_app; by repeat constructor.
  - apply Forall_app; split; [done | apply ingestPDF_resume_quiet].
  - apply Forall_app; split; [done|]. destruct (worker (disp s)); by repeat constructor.
  - apply Forall_app; split; [done|].
    apply Forall_forall. intros m. apply worker_receive_untyped.
  - apply Forall_app; split; [done|].
    apply Forall_forall. intros m. apply on_error_untyped.
  - apply Forall_app; split; [done|]. constructor; [done|].
    apply triggerCallback_OnError_quiet.
  - match goal with H : outbox s = _ |- _ => rewrite H in Ho end.
    inversion Ho as [|? ? Hu _]; subst.
    by rewrite (proj1 (handleWorkerMessage_untyped_step env (disp s) data Hu)).
  - match goal with H : outbox s = _ |- _ => rewrite H in Ho end.
    by inversion Ho.
  - match goal with H : outbox s = _ |- _ => rewrite H in Ho end.
    inversion Ho as [|? ? Hu _]; subst.
    apply Forall_app; split; [done|].
    apply (handleWorkerMessage_untyped_step env (disp s) data Hu).
Qed.

Lemma reachable_Inv s : reachable s → Inv s.
Proof.
  induction 1 as [created|s s' _ IH Hstep]; [apply Inv_initial|].
  by apply (Inv_step s).
Qed.

(** ** The properties of the specification *)

Lemma ok_false (r : Response) : ¬ (200 ≤ status r ≤ 299)%N → ok r = false.
Proof.
  unfold ok. intros H.
  destruct (N.leb_spec 200 (status r)), (N.leb_spec (status r) 299); simpl; try done.
  lia.
Qed.

(** C9.  When the response to the fetch has a status outside 200..299, the
    URL operation posts one message, a failure whose [error] is the fixed
    prefix followed by [HTTP <status>: <statusText>], so that it contains the
    decimal status and the reason phrase; the message has no [data], and no
    other message is posted. *)
Theorem non_2xx_response_fails (env : Env) (url : JsVal) (r : Response) :
  fetch env url = Normal r →
  ¬ (200 ≤ status r ≤ 299)%N →
  ∃ error m,
    handleHtmlFetch env url = ([m], Normal tt) ∧
    error = lit "Failed to fetch/parse HTML: " ++ lit "HTTP " ++ decimal (status r)
            ++ lit ": " ++ statusText r ∧
    get m "operation" = VStr (lit "html") ∧
    get m "success" = VBool false ∧
    get m "error" = VStr error ∧
    get m "data" = VUndefined ∧
    includes (decimal (status r)) error ∧
    includes (statusText r) error.
Proof.
  intros Hf Hs. eexists _, _.
  split; [apply (handleHtmlFetch_status env url r Hf (ok_false r Hs))|].
  split; [reflexivity|]. repeat (split; [reflexivity|]). split.
  - apply includes_app_r, includes_app_r, includes_app_l, includes_refl.
  - do 4 apply includes_app_r. apply includes_refl.
Qed.

Lemma non_2xx_response_fails_404 :
  let env := Fixture.browser (Normal Fixture.not_found) (Normal (Fixture.page [])) in
  fetch env Fixture.address = Normal Fixture.not_found ∧
  ¬ (200 ≤ status Fixture.not_found ≤ 299)%N ∧
  ∃ error m,
    handleHtmlFetch env Fixture.address = ([m], Normal tt) ∧
    error = lit "Failed to fetch/parse HTML: HTTP 404: Not Found" ∧
    get m "error" = VStr error ∧
    get m "data" = VUndefined.
Proof.
  intros env.
  assert (Hs : ¬ (200 ≤ status Fixture.not_found ≤ 299)%N) by (simpl; lia).
  split; [reflexivity|]. split; [exact Hs|].
  destruct (non_2xx_response_fails env Fixture.address Fixture.not_found eq_refl Hs)
    as (error & m & H1 & H2 & _ & _ & H3 & H4 & _).
  exists error, m. rewrite H2 in *. by repeat split.
Defined.

Lemma ok_true (r : Response) : (200 ≤ status r ≤ 299)%N → ok r = true.
Proof.
  unfold ok. intros [H1 H2].
  apply andb_true_iff. split; by apply N.leb_le.
Qed.

























(** The sample page in full: the two anchors and the two headings that do
    not qualify are dropped before the cut, and the records kept are the
    first in document order. *)
Example outline_links :
  links_of (Fixture.served Fixture.outline) Fixture.outline
  = replicate 30 (lit "first", lit "https://example.org//a")
    ++ replicate 30 (lit "second", lit "https://example.org//b")
  ∧ take 50 (links_of (Fixture.served Fixture.outline) Fixture.outline)
    = replicate 30 (lit "first", lit "https://example.org//a")
      ++ replicate 20 (lit "second", lit "https://example.org//b")
  ∧ headings_of Fixture.outline = replicate 25 (lit "h2", lit "Section").
Proof. vm_compute. repeat split. Qed.

(** C3, the claim refuted: a file declared [text/plain] whose bytes do not
    start with [%PDF] gets the message of the type check, not the one of the
    signature check. *)
Lemma wrong_type_gets_the_type_message :
  let env := Fixture.browser (Normal Fixture.ok_response) (Normal (Fixture.page [])) in
  file_arrayBuffer Fixture.notes_txt = Normal [110; 111; 116; 101]%N ∧
  take 4 [110; 111; 116; 101]%N ≠ lit "%PDF" ∧
  ∃ m, handlePdfParse env (VFile Fixture.notes_txt) = ([m], Normal tt) ∧
       get m "success" = VBool false ∧
       get m "error" = VStr (lit "Failed to parse PDF: File is not a PDF document") ∧
       get m "error" ≠ VStr (lit "Failed to parse PDF: Invalid PDF file format").
Proof.
  intros env. split; [reflexivity|]. split; [discriminate|].
  eexists. split; [reflexivity|]. split; [reflexivity|]. split; [reflexivity|].
  discriminate.
Qed.

(** C3, amended.  For every file whose bytes are read and do not start with
    [%PDF], the PDF operation posts one message, a failure of operation
    [pdf]; its error is the message of the type check when the declared type
    is not [application/pdf], and the message of the signature check when
    the declared type is [application/pdf] and the time of last
    modification converts to a date. *)
Theorem bad_signature_fails (env : Env) (f : File) (bytes : list N) :
  file_arrayBuffer f = Normal bytes →
  take 4 bytes ≠ lit "%PDF" →
  ∃ m message,
    handlePdfParse env (VFile f) = ([m], Normal tt) ∧
    get m "operation" = VStr (lit "pdf") ∧
    get m "success" = VBool false ∧
    get m "data" = VUndefined ∧
    get m "error" = VStr (lit "Failed to parse PDF: " ++ message) ∧
    (file_type f ≠ lit "application/pdf" →
     message = lit "File is not a PDF document") ∧
    (file_type f = lit "application/pdf" →
     ∀ iso, Date_toISOString env (VNum (file_lastModified f)) = Normal iso →
            message = lit "Invalid PDF file format").
Proof.
  intros Hb Hsig.
  assert (Hs : startsWith (take 4 bytes) (lit "%PDF") = false).
  { apply not_true_is_false. intros H%startsWith_take.
    change (length (lit "%PDF")) with 4%nat in H.
    rewrite take_take, Nat.min_id in H. done. }
  unfold handlePdfParse, prop, arrayBuffer. simpl.
  unfold jsstring_eqb. case_bool_decide as Ht; simpl.
  - destruct (Date_toISOString env (VNum (file_lastModified f))) as [iso|e] eqn:Hd; simpl.
    + rewrite Hb. simpl. rewrite Hs. simpl.
      eexists _, _. split; [reflexivity|]. do 4 (split; [reflexivity|]).
      split; [done|]. intros _ iso' _. reflexivity.
    + eexists _, _. split; [reflexivity|]. do 4 (split; [reflexivity|]).
      split; [done|]. intros _ iso' [=].
  - eexists _, _. split; [reflexivity|]. do 4 (split; [reflexivity|]).
    split; [reflexivity|]. intros H. by destruct Ht.
Qed.

Lemma bad_signature_fails_sample :
  let env := Fixture.browser (Normal Fixture.ok_response) (Normal (Fixture.page [])) in
  ∃ m, handlePdfParse env (VFile Fixture.fake_pdf) = ([m], Normal tt) ∧
       get m "success" = VBool false ∧
       get m "error" = VStr (lit "Failed to parse PDF: Invalid PDF file format").
Proof.
  intros env.
  destruct (bad_signature_fails env Fixture.fake_pdf [110; 111; 116; 101]%N eq_refl)
    as (m & message & H1 & _ & H2 & _ & H3 & _ & H4).
  - discriminate.
  - exists m. rewrite (H4 eq_refl Fixture.iso_epoch eq_refl) in H3.
    exact (conj H1 (conj H2 H3)).
Defined.

(** C4.  While the readiness flag is false, [ingestURL] and [ingestPDF]
    throw the not-ready error to their caller whatever the argument, and do
    nothing else: no message is posted to the Worker and no file is read. *)
Theorem submission_before_ready_fails (env : Env) (this : Ingest) (arg : JsVal) :
  isWorkerReady this = false →
  ingestURL env this arg = ([], Throw not_ready) ∧
  ingestPDF env this arg = ([], Throw not_ready) ∧
  err_message not_ready = lit "Worker not ready. Please wait for initialization.".
Proof.
  intros H. split; [by apply ingestURL_not_ready|]. split; [|reflexivity].
  unfold ingestPDF. by rewrite ingestPDF_check_not_ready.
Qed.

Lemma submission_before_ready_fails_sample :
  let env := Fixture.browser (Normal Fixture.ok_response) (Normal (Fixture.page [])) in
  isWorkerReady Fixture.fresh = false ∧
  ingestURL env Fixture.fresh Fixture.address = ([], Throw not_ready) ∧
  ingestPDF env Fixture.fresh (VFile Fixture.fake_pdf) = ([], Throw not_ready).
Proof.
  intros env. split; [reflexivity|]. split.
  - apply (submission_before_ready_fails env Fixture.fresh Fixture.address). reflexivity.
  - apply (submission_before_ready_fails env Fixture.fresh (VFile Fixture.fake_pdf)).
    reflexivity.
Defined.

(** C5.  With the Worker ready, and a URL parser that (as the browser's
    does) rejects the empty string: a string the URL parser accepts is
    accepted, the one message posted has the type [ingest_url] and a payload
    with that string as its [url] and the time as its [timestamp], nothing
    is transferred, and the acknowledgment is returned; an argument that is
    not a string, and a string the URL parser rejects, make [ingestURL]
    throw an invalid-input error ([Invalid URL provided] for what is not a
    string or is empty, [Invalid URL format] otherwise), and nothing is
    posted. *)
Theorem ingestURL_validates (env : Env) (this : Ingest) (w : WorkerRef) :
  isWorkerReady this = true →
  worker this = Some w →
  URL_parses env empty_string = false →
  (∀ s, URL_parses env s = true →
        ingestURL env this (VStr s) =
        ([WorkerPost
            (obj [ ("type", VStr (lit "ingest_url"));
                   ("payload", obj [ ("url", VStr s);
                                     ("timestamp", VNum (now env)) ]) ])
            []],
         Normal (obj [ ("status", VStr (lit "processing")); ("url", VStr s) ])) ∧
        ∀ task transfer,
          WorkerPost task transfer ∈ (ingestURL env this (VStr s)).1 →
          get task "type" = VStr (lit "ingest_url") ∧
          get (get task "payload") "url" = VStr s ∧
          get (get task "payload") "timestamp" = VNum (now env) ∧
          transfer = []) ∧
  (∀ v, typeof_string v = false →
        ingestURL env this v = ([], Throw (Error (lit "Invalid URL provided")))) ∧
  (∀ s, URL_parses env s = false →
        ∃ e, ingestURL env this (VStr s) = ([], Throw e) ∧ invalid_input e = true ∧
             e = Error (if nonempty s then lit "Invalid URL format"
                        else lit "Invalid URL provided")).
Proof.
  intros Hr Hw He. unfold empty_string in He.
  unfold ingestURL, worker_postMessage. rewrite Hr, Hw. simpl.
  split; [|split].
  - intros s Hs. destruct s as [|c s]; [congruence|]. simpl. rewrite Hs. simpl.
    split; [reflexivity|].
    intros task transfer [= -> ->]%list_elem_of_singleton. by repeat split.
  - intros v Hv. rewrite Hv, orb_true_r. reflexivity.
  - intros s Hs. destruct s as [|c s]; simpl; [by eexists|].
    rewrite Hs. by eexists.
Qed.

Lemma ingestURL_validates_sample :
  let env := Fixture.browser (Normal Fixture.ok_response) (Normal (Fixture.page [])) in
  ingestURL env Fixture.ready (VStr (lit "https://example.org/paper")) =
    ([WorkerPost
        (obj [ ("type", VStr (lit "ingest_url"));
               ("payload", obj [ ("url", VStr (lit "https://example.org/paper"));
                                 ("timestamp", VNum 0) ]) ])
        []],
     Normal (obj [ ("status", VStr (lit "processing"));
                   ("url", VStr (lit "https://example.org/paper")) ])) ∧
  ingestURL env Fixture.ready (VNum 7) = ([], Throw (Error (lit "Invalid URL provided"))) ∧
  ∃ e, ingestURL env Fixture.ready (VStr (lit "not a url")) = ([], Throw e) ∧
       invalid_input e = true ∧ e = Error (lit "Invalid URL format").
Proof.
  intros env.
  destruct (ingestURL_validates env Fixture.ready IngestWorker) as (H1 & H2 & H3);
    [reflexivity..|].
  split; [apply (H1 (lit "https://example.org/paper")); reflexivity|].
  split; [apply H2; reflexivity|].
  apply (H3 (lit "not a url")). reflexivity.
Defined.

(** C6, the claim refuted: before the Worker is ready, [ingestPDF] of a file
    declared [text/plain] throws the not-ready error, which is not an
    invalid-input error. *)
Lemma not_ready_comes_first :
  let env := Fixture.browser (Normal Fixture.ok_response) (Normal (Fixture.page [])) in
  file_type Fixture.notes_txt ≠ lit "application/pdf" ∧
  ingestPDF env Fixture.fresh (VFile Fixture.notes_txt) = ([], Throw not_ready) ∧
  invalid_input not_ready = false.
Proof. intros env. split; [discriminate|]. split; reflexivity. Qed.

(** C6, amended.  With the readiness flag true, [ingestPDF] of a file whose
    declared type is not [application/pdf] throws the invalid-input error
    [File must be a PDF] before its first [await]: the bytes of the file are
    not read and nothing is posted to the Worker.  With the flag false it
    throws the not-ready error, and again reads and posts nothing. *)
Theorem ingestPDF_rejects_other_types (env : Env) (this : Ingest) (f : File) :
  file_type f ≠ lit "application/pdf" →
  ingestPDF_check this (VFile f) =
    Throw (if isWorkerReady this then Error (lit "File must be a PDF") else not_ready) ∧
  ingestPDF env this (VFile f) =
    ([], Throw (if isWorkerReady this then Error (lit "File must be a PDF") else not_ready)) ∧
  invalid_input (Error (lit "File must be a PDF")) = true ∧
  (∀ f', ReadBytes f' ∉ (ingestPDF env this (VFile f)).1) ∧
  (∀ m t, WorkerPost m t ∉ (ingestPDF env this (VFile f)).1).
Proof.
  intros Ht.
  assert (Hc : ingestPDF_check this (VFile f) =
    Throw (if isWorkerReady this then Error (lit "File must be a PDF") else not_ready)).
  { unfold ingestPDF_check, jsstring_eqb.
    destruct (isWorkerReady this); simpl; [|done].
    by rewrite bool_decide_eq_false_2. }
  assert (Hi : ingestPDF env this (VFile f) =
    ([], Throw (if isWorkerReady this then Error (lit "File must be a PDF") else not_ready))).
  { unfold ingestPDF. by rewrite Hc. }
  rewrite Hi. simpl. repeat split; try done; intros; apply not_elem_of_nil.
Qed.

Lemma ingestPDF_rejects_other_types_sample :
  let env := Fixture.browser (Normal Fixture.ok_response) (Normal (Fixture.page [])) in
  ingestPDF env Fixture.ready (VFile Fixture.notes_txt) =
    ([], Throw (Error (lit "File must be a PDF"))).
Proof.
  intros env.
  apply (ingestPDF_rejects_other_types env Fixture.ready Fixture.notes_txt).
  discriminate.
Defined.

Lemma posts_ingestURL (env : Env) (this : Ingest) (url task : JsVal) :
  task ∈ posts (ingestURL env this url).1 → task = url_task url (now env).
Proof.
  unfold ingestURL, worker_postMessage.
  destruct (negb (isWorkerReady this)); [by intros ?%elem_of_nil|].
  destruct (negb (truthy url) || negb (typeof_string url)); [by intros ?%elem_of_nil|].
  destruct url; try by intros ?%elem_of_nil.
  destruct (negb (URL_parses env s)); [by intros ?%elem_of_nil|].
  destruct (worker this); simpl; [|by intros ?%elem_of_nil].
  by intros ->%list_elem_of_singleton.
Qed.

Lemma posts_ingestPDF_resume (env : Env) (this : Ingest) (f : File) (task : JsVal) :
  task ∈ posts (ingestPDF_resume env this f).1 →
  ∃ bytes, file_arrayBuffer f = Normal bytes ∧ task = pdf_task f bytes (now env).
Proof.
  unfold ingestPDF_resume, worker_postMessage.
  destruct (file_arrayBuffer f) as [bytes|e]; [|by intros ?%elem_of_nil].
  destruct (worker this); simpl; [|by intros ?%elem_of_nil].
  intros ->%list_elem_of_singleton. by exists bytes.
Qed.

Lemma posts_ingestPDF (env : Env) (this : Ingest) (file task : JsVal) :
  task ∈ posts (ingestPDF env this file).1 →
  ∃ f bytes, file_arrayBuffer f = Normal bytes ∧ task = pdf_task f bytes (now env).
Proof.
  unfold ingestPDF.
  destruct (ingestPDF_check this file) as [f|e]; [|by intros ?%elem_of_nil].
  pose proof (posts_ingestPDF_resume env this f task) as H.
  destruct (ingestPDF_resume env this f) as [out r0]. simpl in *.
  intros Hin. destruct (H Hin) as (bytes & Hb & ->). by exists f, bytes.
Qed.

Lemma trace_has_no_onComplete (s : System) (cb : Callback) (data : JsVal) :
  reachable s → Invoke OnComplete cb data ∉ trace s.
Proof.
  intros [_ _ Ht]%reachable_Inv Hin.
  rewrite Forall_forall in Ht. exact (Ht _ Hin).
Qed.

(** C1.  A task message posted by [ingestURL] or by [ingestPDF] (run in one
    piece, or resumed after its file read) carries its
    [type] and its [payload] and no [operation], [url] or [file]; the
    Worker's listener therefore takes its last branch and posts one reply,
    the failure [Invalid operation or missing data] for operation [unknown],
    which has no [type]; [handleWorkerMessage] on that reply reaches the
    [default] of its switch, changes nothing and calls no callback.  And in
    no reachable state of the two together has [onComplete] been called. *)
Theorem forwarded_task_is_never_completed (env worker_env host_env : Env)
    (this that : Ingest) (arg : JsVal) (f : File) (task : JsVal) :
  task ∈ posts (ingestURL env this arg).1
  ∨ task ∈ posts (ingestPDF env this arg).1
  ∨ task ∈ posts (ingestPDF_resume env this f).1 →
  let reply := invalid_operation VUndefined in
  (get task "type" = VStr (lit "ingest_url") ∨ get task "type" = VStr (lit "ingest_pdf")) ∧
  nullish (get task "payload") = false ∧
  get task "operation" = VUndefined ∧
  get task "url" = VUndefined ∧
  get task "file" = VUndefined ∧
  on_message worker_env task = ([reply], Normal tt) ∧
  worker_receive worker_env task = [reply] ∧
  get reply "success" = VBool false ∧
  get reply "error" = VStr (lit "Invalid operation or missing data") ∧
  get reply "operation" = VStr (lit "unknown") ∧
  get reply "type" = VUndefined ∧
  handleWorkerMessage host_env that reply =
    (that, [Console "warn" (lit "Unknown worker message type:") VUndefined], Normal tt) ∧
  (∀ cb data, Invoke OnComplete cb data ∉ (handleWorkerMessage host_env that reply).1.2) ∧
  (∀ s cb data, reachable s → Invoke OnComplete cb data ∉ trace s).
Proof.
  intros H reply.
  assert (Hfinal : ∀ s cb data, reachable s → Invoke OnComplete cb data ∉ trace s)
    by (intros; by apply trace_has_no_onComplete).
  assert (Hcb : ∀ cb data,
    Invoke OnComplete cb data ∉ (handleWorkerMessage host_env that reply).1.2).
  { intros cb data [=]%list_elem_of_singleton. }
  destruct H as [->%posts_ingestURL
                 |[(f' & bytes & _ & ->)%posts_ingestPDF
                  |(bytes & _ & ->)%posts_ingestPDF_resume]].
  - split; [by left|]. by repeat (split; [reflexivity|]).
  - split; [by right|]. by repeat (split; [reflexivity|]).
  - split; [by right|]. by repeat (split; [reflexivity|]).
Qed.

Lemma forwarded_task_is_never_completed_sample :
  let env := Fixture.browser (Normal Fixture.ok_response) (Normal (Fixture.page [])) in
  let task := url_task Fixture.address 0 in
  task ∈ posts (ingestURL env Fixture.ready Fixture.address).1 ∧
  worker_receive env task = [invalid_operation VUndefined] ∧
  handleWorkerMessage env Fixture.ready (invalid_operation VUndefined) =
    (Fixture.ready, [Console "warn" (lit "Unknown worker message type:") VUndefined],
     Normal tt).
Proof.
  intros env task.
  assert (Hin : task ∈ posts (ingestURL env Fixture.ready Fixture.address).1)
    by (apply list_elem_of_singleton; reflexivity).
  split; [exact Hin|].
  destruct (forwarded_task_is_never_completed env env env Fixture.ready Fixture.ready
              Fixture.address Fixture.fake_pdf task (or_introl Hin))
    as (_ & _ & _ & _ & _ & _ & H1 & _ & _ & _ & _ & H2 & _).
  exact (conj H1 H2).
Defined.

Lemma untyped_not_worker_ready (m : JsVal) :
  untyped m → is_str (get m "type") (lit "worker_ready") = false.
Proof. unfold untyped. by intros ->. Qed.

Lemma on_unhandledrejection_untyped (reason : JsError) (m : JsVal) :
  m ∈ posted (on_unhandledrejection reason) → untyped m.
Proof. intros ->%list_elem_of_singleton. reflexivity. Qed.

Lemma handleWorkerMessage_ready (env : Env) (this : Ingest) (data : JsVal) :
  isWorkerReady (handleWorkerMessage env this data).1.1 = true →
  isWorkerReady this = true ∨ is_str (get data "type") (lit "worker_ready") = true.
Proof.
  unfold handleWorkerMessage.
  destruct (nullish data); [by left|].
  destruct (is_str (get data "type") (lit "worker_ready")); [by right|].
  repeat (case_match; [by left|]). by left.
Qed.

Lemma probed_reachable (env : Env) : reachable (probed env).
Proof.
  pose (s0 := initial (Normal tt)).
  pose (s1 := mkSystem (disp s0) []
                (outbox s0 ++ worker_receive env (obj [("type", VStr (lit "init"))]))
                (reading s0) (trace s0)).
  apply (reachable_step s1).
  - apply (reachable_step s0); [apply reachable_initial|].
    exact (step_worker_message env s0 IngestWorker _ [] eq_refl eq_refl).
  - exact (step_deliver env s1 IngestWorker (invalid_operation VUndefined) []
             eq_refl eq_refl).
Qed.

(** C2.  No message the Worker posts, from its message listener or from its
    error and rejection listeners, has the type [worker_ready]; of the Dispatcher's methods
    only [handleWorkerMessage] on a message of that type makes
    [isWorkerReady] true.  So in every reachable state of the two together
    the flag is false, and [ingestURL] and [ingestPDF] throw the not-ready
    error on every argument. *)
Theorem worker_is_never_ready (s : System) :
  reachable s →
  (∀ env data m, m ∈ worker_receive env data →
                 is_str (get m "type") (lit "worker_ready") = false) ∧
  (∀ message m, m ∈ posted (on_error message) →
                is_str (get m "type") (lit "worker_ready") = false) ∧
  (∀ reason m, m ∈ posted (on_unhandledrejection reason) →
               is_str (get m "type") (lit "worker_ready") = false) ∧
  (∀ env this data,
     isWorkerReady (handleWorkerMessage env this data).1.1 = true →
     isWorkerReady this = true ∨ is_str (get data "type") (lit "worker_ready") = true) ∧
  (∀ created, isWorkerReady (new_Ingest created).1 = false) ∧
  (∀ this p c e, isWorkerReady (setCallbacks this p c e) = isWorkerReady this) ∧
  (∀ this, isWorkerReady (destroy this).1 = false) ∧
  isWorkerReady (disp s) = false ∧
  (∀ env arg, ingestURL env (disp s) arg = ([], Throw not_ready)) ∧
  (∀ env arg, ingestPDF env (disp s) arg = ([], Throw not_ready)).
Proof.
  intros [Hr _ _]%reachable_Inv.
  split. { intros env data m Hm. by eapply untyped_not_worker_ready, worker_receive_untyped. }
  split. { intros message m Hm. by eapply untyped_not_worker_ready, on_error_untyped. }
  split.
  { intros reason m Hm. by eapply untyped_not_worker_ready, on_unhandledrejection_untyped. }
  split. { apply handleWorkerMessage_ready. }
  split. { by intros [[]|e]. }
  split. { done. }
  split. { done. }
  split. { exact Hr. }
  split.
  - intros env arg. by apply ingestURL_not_ready.
  - intros env arg. unfold ingestPDF. by rewrite ingestPDF_check_not_ready.
Qed.

Lemma worker_is_never_ready_sample :
  let env := Fixture.browser (Normal Fixture.ok_response) (Normal (Fixture.page [])) in
  reachable (probed env) ∧
  isWorkerReady (disp (probed env)) = false ∧
  ingestURL env (disp (probed env)) Fixture.address = ([], Throw not_ready) ∧
  ingestPDF env (disp (probed env)) (VFile Fixture.fake_pdf) = ([], Throw not_ready).
Proof.
  intros env.
  destruct (worker_is_never_ready (probed env) (probed_reachable env))
    as (_ & _ & _ & _ & _ & _ & _ & H1 & H2 & H3).
  exact (conj (probed_reachable env) (conj H1 (conj (H2 env _) (H3 env _)))).
Defined.

(** ** The paths the properties leave aside, on the fixtures *)

(** A file declared PDF whose bytes start with [%PDF] is described. *)
Example pdf_is_described :
  let env := Fixture.browser (Normal Fixture.ok_response) (Normal (Fixture.page [])) in
  let file := mkFile (lit "paper.pdf") 8 (lit "application/pdf") 0 (Normal Fixture.pdf_bytes) in
  ∃ m, handlePdfParse env (VFile file) = ([m], Normal tt) ∧
       get m "success" = VBool true ∧
       get (get (get m "data") "metadata") "name" = VStr (lit "paper.pdf").
Proof. intros env file. eexists. by repeat split. Qed.

(** A last-modified time out of the range of dates fails before the bytes
    are looked at. *)
Example pdf_with_invalid_time :
  let env := Fixture.browser (Normal Fixture.ok_response) (Normal (Fixture.page [])) in
  let file := mkFile (lit "paper.pdf") 8 (lit "application/pdf") 8640000000000001
                (Normal Fixture.pdf_bytes) in
  ∃ m, handlePdfParse env (VFile file) = ([m], Normal tt) ∧
       get m "error" = VStr (lit "Failed to parse PDF: Invalid time value").
Proof. intros env file. eexists. by repeat split. Qed.

(** A message with an operation the Worker knows is handled: the mismatch
    is in the messages the Dispatcher builds, not in the listener. *)
Example html_operation_is_handled :
  let env := Fixture.served (Fixture.page [Text (lit "hello")]) in
  let data := obj [("operation", VStr (lit "html")); ("url", Fixture.address)] in
  ∃ m, worker_receive env data = [m] ∧
       get m "success" = VBool true ∧
       get (get m "data") "title" = VStr (lit "Sample") ∧
       get (get m "data") "bodyText" = VStr (lit "hello").
Proof. intros env data. eexists. by repeat split. Qed.

(** [getStatus] reads the flag and the callbacks. *)
Example getStatus_fresh :
  get (getStatus Fixture.fresh) "workerReady" = VBool false
  ∧ get (get (getStatus (setCallbacks Fixture.fresh None (Some 1%nat) None))
           "hasCallbacks") "onComplete" = VBool true.
Proof. by split. Qed.

(** ** Beyond the specification's list: the clean-up of the body text *)

(** A word: not empty, and without whitespace. *)
Lemma tokens_words (s : jsstring) :
  Forall (λ w, w ≠ [] ∧ Forall (λ c, is_ws c = false) w) (tokens is_ws s).
Proof.
  induction s as [|c r IH]; simpl; [constructor|].
  destruct (is_ws c) eqn:Hc; [exact IH|].
  destruct r as [|c' r']; [by repeat constructor|].
  destruct (is_ws c') eqn:Hc'; [constructor; [by repeat constructor|exact IH]|].
  destruct (tokens is_ws (c' :: r')) as [|w ws]; [by repeat constructor|].
  inversion IH as [|? ? [_ Hw] Hws]; subst.
  constructor; [|done]. split; [done|]. by constructor.
Qed.

Lemma tokens_word_then (w r : jsstring) (sep : N) :
  w ≠ [] → Forall (λ c, is_ws c = false) w → is_ws sep = true →
  tokens is_ws (w ++ sep :: r) = w :: tokens is_ws r.
Proof.
  intros Hne Hw Hsep. induction Hw as [|c w Hc Hw IH]; [done|].
  destruct w as [|c2 w'].
  - simpl. by rewrite Hc, Hsep.
  - change (tokens is_ws ((c :: c2 :: w') ++ sep :: r)) with
      (if is_ws c then tokens is_ws ((c2 :: w') ++ sep :: r)
       else if is_ws c2 then [c] :: tokens is_ws ((c2 :: w') ++ sep :: r)
            else match tokens is_ws ((c2 :: w') ++ sep :: r) with
                 | w0 :: ws => (c :: w0) :: ws
                 | [] => [[c]]
                 end).
    inversion Hw as [|? ? Hc2 _]; subst.
    rewrite Hc, Hc2, IH by done. reflexivity.
Qed.

Lemma tokens_word (w : jsstring) :
  w ≠ [] → Forall (λ c, is_ws c = false) w → tokens is_ws w = [w].
Proof.
  intros Hne Hw. induction Hw as [|c w Hc Hw IH]; [done|].
  destruct w as [|c2 w'].
  - simpl. by rewrite Hc.
  - change (tokens is_ws (c :: c2 :: w')) with
      (if is_ws c then tokens is_ws (c2 :: w')
       else if is_ws c2 then [c] :: tokens is_ws (c2 :: w')
            else match tokens is_ws (c2 :: w') with
                 | w0 :: ws => (c :: w0) :: ws
                 | [] => [[c]]
                 end).
    inversion Hw as [|? ? Hc2 _]; subst.
    rewrite Hc, Hc2, IH by done. reflexivity.
Qed.

Lemma tokens_join (ws : list jsstring) :
  Forall (λ w, w ≠ [] ∧ Forall (λ c, is_ws c = false) w) ws →
  tokens is_ws (join SPACE ws) = ws.
Proof.
  induction 1 as [|w rest [Hne Hw] Hrest IH]; [done|].
  simpl. destruct rest as [|w' rest'].
  - by apply tokens_word.
  - rewrite tokens_word_then by done. by rewrite IH.
Qed.

(** X1.  The clean-up of the body text keeps the words of the text, in
    their order, and cleaning a cleaned text changes nothing. *)
Theorem clean_keeps_words (s : jsstring) :
  tokens is_ws (trim (replace_ws s)) = tokens is_ws s ∧
  trim (replace_ws (trim (replace_ws s))) = trim (replace_ws s).
Proof.
  rewrite !clean_normalize. unfold normalize_space.
  rewrite tokens_join by apply tokens_words. done.
Qed.

Lemma length_replace_ws (s : jsstring) :
  (length (replace_ws s) ≤ length s ∧ length (skip_ws s) ≤ length s)%nat.
Proof. induction s as [|c r [IH1 IH2]]; simpl; [lia|]. destruct (is_ws c); simpl; lia. Qed.

Lemma length_ltrim (s : jsstring) : (length (ltrim s) ≤ length s)%nat.
Proof. induction s as [|c r IH]; simpl; [lia|]. destruct (is_ws c); simpl; lia. Qed.

Lemma length_trim (s : jsstring) : (length (trim s) ≤ length s)%nat.
Proof.
  unfold trim, rtrim. rewrite length_rev.
  etrans; [apply length_ltrim|]. rewrite length_rev. apply length_ltrim.
Qed.

Lemma join_whitespace (ws : list jsstring) (c : N) :
  Forall (λ w, w ≠ [] ∧ Forall (λ c, is_ws c = false) w) ws →
  c ∈ join SPACE ws → is_ws c = true → c = SPACE.
Proof.
  induction 1 as [|w rest [Hne Hw] Hrest IH]; simpl; [by intros ?%elem_of_nil|].
  rewrite Forall_forall in Hw.
  destruct rest as [|w' rest'].
  - intros Hin Hc. rewrite (Hw _ Hin) in Hc. done.
  - rewrite elem_of_app, elem_of_cons. intros [Hin|[->|Hin]] Hc; [|done|by apply IH].
    rewrite (Hw _ Hin) in Hc. done.
Qed.

Lemma join_head (ws : list jsstring) (c : N) (r : jsstring) :
  Forall (λ w, w ≠ [] ∧ Forall (λ c, is_ws c = false) w) ws →
  join SPACE ws = c :: r → is_ws c = false.
Proof.
  intros H. destruct H as [|w rest [Hne Hw] _]; [done|]. simpl.
  destruct Hw as [|c0 w0 Hc0 _]; [done|].
  destruct rest; simpl; by intros [= <- _].
Qed.

Lemma join_last (ws : list jsstring) (c : N) :
  Forall (λ w, w ≠ [] ∧ Forall (λ c, is_ws c = false) w) ws →
  last (join SPACE ws) = Some c → is_ws c = false.
Proof.
  induction 1 as [|w rest [Hne Hw] Hrest IH]; [done|]. simpl.
  destruct rest as [|w' rest'].
  - intros Hl. rewrite Forall_forall in Hw. apply Hw.
    apply last_Some in Hl as [l' ->]. apply elem_of_app. right. apply list_elem_of_here.
  - rewrite last_app_cons, last_cons.
    destruct (last (join SPACE (w' :: rest'))) as [c'|] eqn:E.
    + intros [= <-]. by apply IH.
    + apply last_None in E. inversion Hrest as [|? ? [Hne' Hw'] _]; subst.
      simpl in E. destruct rest'; [done|by destruct w'].
Qed.

(** X2.  The cleaned body text is never longer than the text, does not
    begin or end with whitespace, and holds no whitespace but the space. *)
Theorem clean_shape (s : jsstring) :
  let cleaned := trim (replace_ws s) in
  (length cleaned ≤ length s)%nat ∧
  (∀ c r, cleaned = c :: r → is_ws c = false) ∧
  (∀ c, last cleaned = Some c → is_ws c = false) ∧
  (∀ c, c ∈ cleaned → is_ws c = true → c = SPACE).
Proof.
  intros cleaned. split.
  { unfold cleaned. etrans; [apply length_trim|]. apply length_replace_ws. }
  unfold cleaned. rewrite clean_normalize. unfold normalize_space.
  pose proof (tokens_words s) as Hw.
  split; [intros c r; by apply join_head|].
  split; [intros c; by apply join_last|].
  intros c. by apply join_whitespace.
Qed.

(** ** Beyond the specification's list: the Worker *)

Lemma ok_range (r : Response) : ok r = true ↔ (200 ≤ status r ≤ 299)%N.
Proof.
  split; [|apply ok_true].
  unfold ok. rewrite andb_true_iff, !N.leb_le. done.
Qed.

(** X3.  The Worker never answers a message twice: it posts at most one
    message for each message it receives, and what it posts has no [type],
    a boolean [success] and a defined [operation]. *)
Theorem worker_posts_at_most_one_message (env : Env) (data : JsVal) :
  (length (worker_receive env data) ≤ 1)%nat ∧
  ∀ m, m ∈ worker_receive env data →
       get m "type" = VUndefined ∧
       (get m "success" = VBool true ∨ get m "success" = VBool false) ∧
       get m "operation" ≠ VUndefined.
Proof.
  assert (Hor : ∀ v, js_or v (VStr (lit "unknown")) ≠ VUndefined).
  { intros v. unfold js_or. destruct (truthy v) eqn:Hv; [by destruct v|done]. }
  unfold worker_receive, on_message.
  destruct (nullish data) eqn:Hn; simpl.
  { split; [done|]. intros m ->%list_elem_of_singleton.
    split; [reflexivity|]. split; [by right|done]. }
  destruct (is_str (get data "operation") (lit "html") && truthy (get data "url")).
  { destruct (handleHtmlFetch_total env (get data "url")) as (m' & -> & H). simpl.
    split; [done|]. intros m ->%list_elem_of_singleton.
    destruct H as [[d ->]|[msg ->]]; (split; [reflexivity|]);
      (split; [by (left + right)|done]). }
  destruct (is_str (get data "operation") (lit "pdf") && truthy (get data "file")).
  { destruct (handlePdfParse_total env (get data "file")) as (m' & -> & H). simpl.
    split; [done|]. intros m ->%list_elem_of_singleton.
    destruct H as [[d ->]|[msg ->]]; (split; [reflexivity|]);
      (split; [by (left + right)|done]). }
  simpl. split; [done|]. intros m ->%list_elem_of_singleton.
  split; [reflexivity|]. split; [by right|apply Hor].
Qed.

(** X4.  A message whose data is [null] or [undefined] makes the listener
    throw while it destructures; the Worker then posts the failure of its
    rejection listener, for operation [error], naming the error thrown. *)
Theorem nullish_data_is_reported (env : Env) (data : JsVal) :
  nullish data = true →
  ∃ m, worker_receive env data = [m] ∧
       get m "success" = VBool false ∧
       get m "operation" = VStr (lit "error") ∧
       get m "error" = VStr (lit "Unhandled promise rejection: "
                             ++ error_toString (fault env DestructureNullish)).
Proof.
  intros Hn. unfold worker_receive, on_message. rewrite Hn. simpl.
  eexists. by repeat split.
Qed.

Lemma nullish_data_is_reported_sample :
  ∃ m, worker_receive Fixture.offline VNull = [m] ∧
       get m "error"
       = VStr (lit "Unhandled promise rejection: TypeError: Cannot destructure").
Proof.
  destruct (nullish_data_is_reported Fixture.offline VNull eq_refl)
    as (m & H1 & _ & _ & H2).
  exists m. exact (conj H1 H2).
Defined.



(** X6.  When the fetch is rejected, or the text of an accepted response
    cannot be read, or its markup cannot be parsed, the failure posted
    carries the message of that error after the fixed prefix. *)
Theorem html_failure_names_the_cause (env : Env) (url : JsVal) (e : JsError) :
  fetch env url = Throw e
  ∨ (∃ r, fetch env url = Normal r ∧ (200 ≤ status r ≤ 299)%N ∧
          (text r = Throw e
           ∨ ∃ html, text r = Normal html ∧ parseFromString env html = Throw e)) →
  ∃ m, handleHtmlFetch env url = ([m], Normal tt) ∧
       get m "success" = VBool false ∧
       get m "error" = VStr (lit "Failed to fetch/parse HTML: " ++ err_message e).
Proof.
  unfold handleHtmlFetch.
  intros [Hf|(r & Hf & Hr%ok_range & [Ht|(html & Ht & Hp)])]; rewrite Hf; simpl.
  - eexists. by repeat split.
  - rewrite Hr. simpl. rewrite Ht. simpl. eexists. by repeat split.
  - rewrite Hr. simpl. rewrite Ht. simpl. rewrite Hp. simpl. eexists. by repeat split.
Qed.

Lemma html_failure_names_the_cause_sample :
  ∃ m, handleHtmlFetch Fixture.offline Fixture.address = ([m], Normal tt) ∧
       get m "error" = VStr (lit "Failed to fetch/parse HTML: Failed to fetch").
Proof.
  destruct (html_failure_names_the_cause Fixture.offline Fixture.address
              (mkError (lit "TypeError") (lit "Failed to fetch")) (or_introl eq_refl))
    as (m & H1 & _ & H2).
  exists m. exact (conj H1 H2).
Defined.












Lemma jsstring_eqb_eq (s t : jsstring) : jsstring_eqb s t = true ↔ s = t.
Proof. unfold jsstring_eqb. apply bool_decide_eq_true. Qed.

Lemma startsWith_signature (bytes : list N) :
  startsWith (take 4 bytes) (lit "%PDF") = true ↔ take 4 bytes = lit "%PDF".
Proof.
  rewrite startsWith_take. change (length (lit "%PDF")) with 4%nat.
  by rewrite take_take, Nat.min_id.
Qed.

(** X10.  A message posted by the PDF operation for a File is a success
    exactly when the declared type of the File is [application/pdf], its
    time of last modification converts to a date, its bytes were read and
    the first four of them are [%PDF]; a message that is not a success is a
    failure without [data].  And when all that holds, the success is
    posted. *)
Theorem pdf_success_iff (env : Env) (f : File) (m : JsVal) :
  m ∈ posted (handlePdfParse env (VFile f)) →
  let accepted :=
    file_type f = lit "application/pdf" ∧
    (∃ iso, Date_toISOString env (VNum (file_lastModified f)) = Normal iso) ∧
    (∃ bytes, file_arrayBuffer f = Normal bytes ∧ take 4 bytes = lit "%PDF") in
  (get m "success" = VBool true ↔ accepted) ∧
  (get m "success" = VBool true
   ∨ get m "success" = VBool false ∧ get m "data" = VUndefined) ∧
  (accepted → handlePdfParse env (VFile f) = ([m], Normal tt)).
Proof.
  unfold handlePdfParse, prop, arrayBuffer, posted. simpl.
  destruct (jsstring_eqb (file_type f) (lit "application/pdf")) eqn:Ht; simpl.
  2: { intros ->%list_elem_of_singleton. split; [|split; [by right|]].
       - split; [done|]. intros (Ht'%jsstring_eqb_eq & _). congruence.
       - intros (Ht'%jsstring_eqb_eq & _). congruence. }
  apply jsstring_eqb_eq in Ht.
  destruct (Date_toISOString env (VNum (file_lastModified f))) as [iso|e] eqn:Hd; simpl.
  2: { intros ->%list_elem_of_singleton. split; [|split; [by right|]].
       - split; [done|]. by intros (_ & [? ?] & _).
       - by intros (_ & [? ?] & _). }
  destruct (file_arrayBuffer f) as [bytes|e] eqn:Hb; simpl.
  2: { intros ->%list_elem_of_singleton. split; [|split; [by right|]].
       - split; [done|]. by intros (_ & _ & ? & ? & _).
       - by intros (_ & _ & ? & ? & _). }
  destruct (startsWith (take 4 bytes) (lit "%PDF")) eqn:Hs; simpl.
  - apply startsWith_signature in Hs.
    intros ->%list_elem_of_singleton. split; [|split; [by left|done]].
    split; [|done]. intros _. split; [done|]. split; [by exists iso|by exists bytes].
  - intros ->%list_elem_of_singleton. split; [|split; [by right|]].
    + split; [done|]. intros (_ & _ & bytes' & [= <-] & Hs'%startsWith_signature).
      congruence.
    + intros (_ & _ & bytes' & [= <-] & Hs'%startsWith_signature). congruence.
Qed.

Lemma pdf_success_iff_sample :
  ∃ m, m ∈ posted (handlePdfParse Fixture.offline (VFile Fixture.paper)) ∧
       get m "success" = VBool true ∧
       handlePdfParse Fixture.offline (VFile Fixture.paper) = ([m], Normal tt).
Proof.
  eexists.
  assert (Hin : ?[m] ∈ posted (handlePdfParse Fixture.offline (VFile Fixture.paper)))
    by (apply list_elem_of_singleton; reflexivity).
  split; [exact Hin|].
  destruct (pdf_success_iff Fixture.offline Fixture.paper _ Hin) as (H1 & _ & H2).
  assert (Hacc : file_type Fixture.paper = lit "application/pdf" ∧
                 (∃ iso, Date_toISOString Fixture.offline
                           (VNum (file_lastModified Fixture.paper)) = Normal iso) ∧
                 (∃ bytes, file_arrayBuffer Fixture.paper = Normal bytes
                           ∧ take 4 bytes = lit "%PDF")).
  { split; [reflexivity|]. split; [by eexists|]. eexists. by split. }
  exact (conj (proj2 H1 Hacc) (H2 Hacc)).
Defined.

(** X11.  What the PDF operation posts depends on the bytes of the file
    only through the first four: two readable files with the same name,
    size, declared type and time of last modification, and the same first
    four bytes, get the same message. *)
Theorem pdf_content_is_not_read (env : Env) (f g : File) (bytes bytes' : list N) :
  file_name f = file_name g →
  file_size f = file_size g →
  file_type f = file_type g →
  file_lastModified f = file_lastModified g →
  file_arrayBuffer f = Normal bytes →
  file_arrayBuffer g = Normal bytes' →
  take 4 bytes = take 4 bytes' →
  handlePdfParse env (VFile f) = handlePdfParse env (VFile g).
Proof.
  intros Hn Hs Ht Hl Hb Hb' H4.
  unfold handlePdfParse, prop, arrayBuffer, opt_prop. simpl.
  by rewrite Hn, Hs, Ht, Hl, Hb, Hb', H4.
Qed.

Lemma pdf_content_is_not_read_sample :
  handlePdfParse Fixture.offline (VFile Fixture.paper)
  = handlePdfParse Fixture.offline (VFile Fixture.paper_revised).
Proof.
  apply (pdf_content_is_not_read Fixture.offline Fixture.paper Fixture.paper_revised
           Fixture.pdf_bytes [37; 80; 68; 70; 45; 50; 46; 48]%N); reflexivity.
Defined.

(** X12.  When the bytes of a file declared PDF, with a valid time of last
    modification, cannot be read, the failure posted carries the message of
    the rejection; its [filename] is the name of the file, and [unknown]
    when that name is empty. *)
Theorem pdf_read_rejection (env : Env) (f : File) (iso : jsstring) (e : JsError) :
  file_type f = lit "application/pdf" →
  Date_toISOString env (VNum (file_lastModified f)) = Normal iso →
  file_arrayBuffer f = Throw e →
  ∃ m, handlePdfParse env (VFile f) = ([m], Normal tt) ∧
       get m "success" = VBool false ∧
       get m "error" = VStr (lit "Failed to parse PDF: " ++ err_message e) ∧
       get m "filename"
       = VStr (if nonempty (file_name f) then file_name f else lit "unknown").
Proof.
  intros Ht Hd Hb. unfold handlePdfParse, prop, arrayBuffer, opt_prop. simpl.
  rewrite (proj2 (jsstring_eqb_eq _ _) Ht). simpl. rewrite Hd. simpl. rewrite Hb. simpl.
  eexists. split; [reflexivity|]. do 2 (split; [reflexivity|]).
  unfold js_or. simpl. by destruct (file_name f).
Qed.

Lemma pdf_read_rejection_sample :
  ∃ m, handlePdfParse Fixture.offline (VFile Fixture.unreadable) = ([m], Normal tt) ∧
       get m "error" = VStr (lit "Failed to parse PDF: The file could not be read") ∧
       get m "filename" = VStr (lit "unknown").
Proof.
  destruct (pdf_read_rejection Fixture.offline Fixture.unreadable Fixture.iso_epoch
              (mkError (lit "NotReadableError") (lit "The file could not be read"))
              eq_refl eq_refl eq_refl)
    as (m & H1 & _ & H2 & H3).
  exists m. exact (conj H1 (conj H2 H3)).
Defined.

(** ** Beyond the specification's list: the Dispatcher *)

(** X13.  [setCallbacks] only adds: it leaves the Worker and the readiness
    flag alone, a channel that has a callback still has one afterwards, two
    registrations amount to one in which the later callback wins, and a
    registration of nothing changes nothing. *)
Theorem setCallbacks_only_adds (this : Ingest) (p c e : option Callback) :
  worker (setCallbacks this p c e) = worker this ∧
  isWorkerReady (setCallbacks this p c e) = isWorkerReady this ∧
  (∀ ch, is_Some (callback_of (callbacks this) ch) →
         is_Some (callback_of (callbacks (setCallbacks this p c e)) ch)) ∧
  (∀ ch f, callback_of (mkCallbacks p c e) ch = Some f →
           callback_of (callbacks (setCallbacks this p c e)) ch = Some f) ∧
  (∀ p' c' e',
     setCallbacks (setCallbacks this p c e) p' c' e'
     = setCallbacks this (from_option Some p p') (from_option Some c c')
         (from_option Some e e')) ∧
  setCallbacks this None None None = this.
Proof.
  destruct this as [w r [op oc oe]]. unfold setCallbacks. simpl.
  split; [done|]. split; [done|]. split.
  { intros [] [f Hf]; simpl in *; subst; [by destruct p|by destruct c|by destruct e]. }
  split.
  { by intros [] f; simpl; intros ->. }
  split; [|done].
  intros p' c' e'. by destruct p, c, e, p', c', e'.
Qed.

Lemma typed_not_nullish (data : JsVal) (t : jsstring) :
  get data "type" = VStr t → nullish data = false.
Proof. by destruct data. Qed.

(** X14.  A message whose type is [progress], [ingest_complete] or [error]
    is relayed to the callback of its channel, which is called once with the
    [payload] of the message; when the channel has no callback the message
    is dropped without a trace.  The Dispatcher is left as it was. *)
Theorem message_is_relayed (env : Env) (this : Ingest) (data : JsVal) (ch : Channel) :
  get data "type" = VStr (channel_type ch) →
  handleWorkerMessage env this data =
  (this,
   match callback_of (callbacks this) ch with
   | Some f => [Invoke ch f (get data "payload")]
   | None => []
   end,
   Normal tt).
Proof.
  intros Ht. unfold handleWorkerMessage, triggerCallback.
  rewrite (typed_not_nullish data _ Ht), Ht. by destruct ch.
Qed.

Lemma message_is_relayed_sample :
  let result := obj [("success", VBool true)] in
  let data := obj [("type", VStr (lit "ingest_complete")); ("payload", result)] in
  handleWorkerMessage Fixture.offline Fixture.listening data
  = (Fixture.listening, [Invoke OnComplete 2%nat result], Normal tt)
  ∧ handleWorkerMessage Fixture.offline Fixture.ready data
    = (Fixture.ready, [], Normal tt).
Proof.
  intros result data. split.
  - apply (message_is_relayed Fixture.offline Fixture.listening data OnComplete).
    reflexivity.
  - apply (message_is_relayed Fixture.offline Fixture.ready data OnComplete).
    reflexivity.
Defined.

(** X15.  Once a message of type [worker_ready] has been handled by a
    Dispatcher that has its Worker, the Worker and the callbacks are as
    before, and every string the URL parser accepts is accepted by
    [ingestURL], also after any registration of callbacks. *)
Theorem ready_then_accepted (env : Env) (this : Ingest) (w : WorkerRef)
    (data : JsVal) (s : jsstring) :
  worker this = Some w →
  get data "type" = VStr (lit "worker_ready") →
  URL_parses env s = true →
  s ≠ [] →
  let this' := (handleWorkerMessage env this data).1.1 in
  isWorkerReady this' = true ∧
  worker this' = worker this ∧
  callbacks this' = callbacks this ∧
  ∀ p c e,
    ingestURL env (setCallbacks this' p c e) (VStr s)
    = ([WorkerPost (url_task (VStr s) (now env)) []],
       Normal (obj [ ("status", VStr (lit "processing")); ("url", VStr s) ])).
Proof.
  intros Hw Ht Hs Hne this'. subst this'. unfold handleWorkerMessage.
  rewrite (typed_not_nullish data _ Ht), Ht. simpl.
  do 3 (split; [done|]). intros p c e.
  unfold ingestURL, worker_postMessage, setCallbacks. simpl.
  rewrite Hw, Hs. by destruct s.
Qed.

Lemma ready_then_accepted_sample :
  let acknowledged :=
    (handleWorkerMessage Fixture.offline Fixture.fresh
       (obj [("type", VStr (lit "worker_ready"))])).1.1 in
  isWorkerReady acknowledged = true ∧
  ingestURL Fixture.offline (setCallbacks acknowledged None (Some 2%nat) None)
    Fixture.address
  = ([WorkerPost (url_task Fixture.address 0) []],
     Normal (obj [ ("status", VStr (lit "processing")); ("url", Fixture.address) ])).
Proof.
  intros acknowledged.
  destruct (ready_then_accepted Fixture.offline Fixture.fresh IngestWorker
              (obj [("type", VStr (lit "worker_ready"))])
              (lit "https://example.org/paper") eq_refl eq_refl eq_refl)
    as (H1 & _ & _ & H2); [discriminate|].
  exact (conj H1 (H2 None (Some 2%nat) None)).
Defined.

(** X16.  After [destroy] the Dispatcher has no Worker, no callback and is
    not ready: every submission throws the not-ready error, no message
    handled afterwards calls a callback, [getStatus] reports nothing ready
    and nothing registered, and a second [destroy] changes nothing and
    terminates nothing.  The Worker is terminated exactly when there was
    one. *)
Theorem destroy_resets (env : Env) (this : Ingest) (arg data : JsVal) :
  let gone := (destroy this).1 in
  worker gone = None ∧
  callbacks gone = no_callbacks ∧
  ingestURL env gone arg = ([], Throw not_ready) ∧
  ingestPDF env gone arg = ([], Throw not_ready) ∧
  (∀ ch f v, Invoke ch f v ∉ (handleWorkerMessage env gone data).1.2) ∧
  destroy gone = (gone, []) ∧
  ((destroy this).2 = [Terminate] ↔ worker this ≠ None) ∧
  ((destroy this).2 = [] ↔ worker this = None) ∧
  getStatus gone
  = obj [ ("workerReady", VBool false);
          ("hasCallbacks", obj [ ("onProgress", VBool false);
                                 ("onComplete", VBool false);
                                 ("onError", VBool false) ]) ].
Proof.
  intros gone. subst gone. unfold destroy. simpl.
  do 4 (split; [done|]). split.
  { intros ch f v. unfold handleWorkerMessage, triggerCallback. simpl.
    repeat case_match; simpl;
      rewrite ?elem_of_cons; try apply not_elem_of_nil; by intros [?|?%elem_of_nil]. }
  split; [done|]. destruct (worker this); by repeat split.
Qed.

(** X17.  With the Worker ready, [ingestPDF] of a File declared PDF whose
    bytes are read reads the file once and then posts one message, of type
    [ingest_pdf], whose payload carries the name, the size and the bytes of
    the file; the buffer of the bytes is transferred; the acknowledgment
    returned names the file and its size. *)
Theorem ingestPDF_forwards_the_file (env : Env) (this : Ingest) (w : WorkerRef)
    (f : File) (bytes : list N) :
  isWorkerReady this = true →
  worker this = Some w →
  file_type f = lit "application/pdf" →
  file_arrayBuffer f = Normal bytes →
  ∃ task,
    ingestPDF env this (VFile f)
    = ([ReadBytes f; WorkerPost task [VBuffer bytes]],
       Normal (obj [ ("status", VStr (lit "processing"));
                     ("fileName", VStr (file_name f));
                     ("fileSize", VNum (file_size f)) ])) ∧
    get task "type" = VStr (lit "ingest_pdf") ∧
    get (get task "payload") "fileName" = VStr (file_name f) ∧
    get (get task "payload") "fileSize" = VNum (file_size f) ∧
    get (get task "payload") "fileData" = VBuffer bytes ∧
    get (get task "payload") "timestamp" = VNum (now env).
Proof.
  intros Hr Hw Ht Hb.
  unfold ingestPDF, ingestPDF_check, ingestPDF_resume, worker_postMessage.
  rewrite Hr, (proj2 (jsstring_eqb_eq _ _) Ht). simpl. rewrite Hb, Hw. simpl.
  eexists. split; [reflexivity|]. by repeat split.
Qed.

Lemma ingestPDF_forwards_the_file_sample :
  ∃ task,
    ingestPDF Fixture.offline Fixture.ready (VFile Fixture.paper)
    = ([ReadBytes Fixture.paper; WorkerPost task [VBuffer Fixture.pdf_bytes]],
       Normal (obj [ ("status", VStr (lit "processing"));
                     ("fileName", VStr (lit "paper.pdf"));
                     ("fileSize", VNum 8) ])) ∧
    get (get task "payload") "fileName" = VStr (lit "paper.pdf") ∧
    get (get task "payload") "fileData" = VBuffer Fixture.pdf_bytes.
Proof.
  destruct (ingestPDF_forwards_the_file Fixture.offline Fixture.ready IngestWorker
              Fixture.paper Fixture.pdf_bytes eq_refl eq_refl eq_refl eq_refl)
    as (task & H1 & _ & H2 & _ & H3 & _).
  exists task. exact (conj H1 (conj H2 H3)).
Defined.

(** X18.  With the Worker ready, when the bytes of a File declared PDF
    cannot be read, [ingestPDF] throws [Failed to read PDF file:] followed
    by the message of the rejection, and nothing is posted to the Worker. *)
Theorem ingestPDF_read_failure (env : Env) (this : Ingest) (f : File) (e : JsError) :
  isWorkerReady this = true →
  file_type f = lit "application/pdf" →
  file_arrayBuffer f = Throw e →
  ingestPDF env this (VFile f)
  = ([ReadBytes f], Throw (Error (lit "Failed to read PDF file: " ++ err_message e))) ∧
  posts (ingestPDF env this (VFile f)).1 = [].
Proof.
  intros Hr Ht Hb.
  unfold ingestPDF, ingestPDF_check, ingestPDF_resume.
  rewrite Hr, (proj2 (jsstring_eqb_eq _ _) Ht). simpl. rewrite Hb. done.
Qed.

Lemma ingestPDF_read_failure_sample :
  ingestPDF Fixture.offline Fixture.ready (VFile Fixture.unreadable)
  = ([ReadBytes Fixture.unreadable],
     Throw (Error (lit "Failed to read PDF file: The file could not be read"))).
Proof.
  apply (ingestPDF_read_failure Fixture.offline Fixture.ready Fixture.unreadable
           (mkError (lit "NotReadableError") (lit "The file could not be read")));
    reflexivity.
Defined.

(** X19.  With the Worker ready, an argument of [ingestPDF] that is not a
    File (null, a string, a plain object, a buffer) makes it throw the
    invalid-input error [Invalid file provided]; nothing is read and
    nothing is posted. *)
Theorem ingestPDF_needs_a_File (env : Env) (this : Ingest) (arg : JsVal) :
  isWorkerReady this = true →
  (∀ f, arg ≠ VFile f) →
  ingestPDF env this arg = ([], Throw (Error (lit "Invalid file provided"))) ∧
  invalid_input (Error (lit "Invalid file provided")) = true.
Proof.
  intros Hr Harg. unfold ingestPDF, ingestPDF_check. rewrite Hr. simpl.
  split; [|reflexivity]. destruct arg; try done. by destruct (Harg f).
Qed.

Lemma ingestPDF_needs_a_File_sample :
  ingestPDF Fixture.offline Fixture.ready (VBuffer Fixture.pdf_bytes)
  = ([], Throw (Error (lit "Invalid file provided"))).
Proof.
  apply (ingestPDF_needs_a_File Fixture.offline Fixture.ready
           (VBuffer Fixture.pdf_bytes)); [reflexivity|discriminate].
Defined.

(** X20.  When the Dispatcher is destroyed while [ingestPDF] waits for the
    bytes of a file it has accepted, the call fails once the bytes are
    there: it throws [Failed to read PDF file:] followed by the message of
    the engine's error for the missing Worker, and posts nothing. *)
Theorem destroy_during_read (env : Env) (this : Ingest) (f : File) (bytes : list N) :
  ingestPDF_check this (VFile f) = Normal f →
  file_arrayBuffer f = Normal bytes →
  ingestPDF_resume env (destroy this).1 f
  = ([], Throw (Error (lit "Failed to read PDF file: "
                       ++ err_message (fault env (ReadOfNullish "postMessage"))))).
Proof.
  intros _ Hb. unfold ingestPDF_resume, worker_postMessage, destroy. simpl.
  by rewrite Hb.
Qed.

Lemma destroy_during_read_sample :
  ingestPDF_check Fixture.ready (VFile Fixture.paper) = Normal Fixture.paper ∧
  ingestPDF_resume Fixture.offline (destroy Fixture.ready).1 Fixture.paper
  = ([], Throw (Error (lit "Failed to read PDF file: Cannot read properties"))).
Proof.
  split; [reflexivity|].
  apply (destroy_during_read Fixture.offline Fixture.ready Fixture.paper
           Fixture.pdf_bytes); reflexivity.
Defined.

(** X21.  The constructor calls no callback, whatever becomes of the
    Worker: none can be registered before it returns.  When the Worker
    cannot be made, the error is logged, the Dispatcher is left without a
    Worker, nothing is posted, and every later submission throws the
    not-ready error, also after callbacks are registered. *)
Theorem construction_failure_is_silent (env : Env) (created : Completion unit)
    (error : JsError) (p c e : option Callback) (arg : JsVal) :
  (∀ ch f v, Invoke ch f v ∉ (new_Ingest created).2) ∧
  (created = Throw error →
   worker (new_Ingest created).1 = None ∧
   (new_Ingest created).2
   = [Console "error" (lit "Failed to initialize worker:") (VError error)] ∧
   ingestURL env (setCallbacks (new_Ingest created).1 p c e) arg
   = ([], Throw not_ready) ∧
   ingestPDF env (setCallbacks (new_Ingest created).1 p c e) arg
   = ([], Throw not_ready)).
Proof.
  split.
  - intros ch f v. destruct created as [[]|err]; simpl.
    + by intros [=]%list_elem_of_singleton.
    + by intros [=]%list_elem_of_singleton.
  - by intros ->.
Qed.

Lemma worker_receive_init (env : Env) :
  worker_receive env init_probe = [invalid_operation VUndefined].
Proof. reflexivity. Qed.

Lemma Idle_initial created : Idle (initial created).
Proof.
  destruct created as [[]|e]; split; simpl; try done; by repeat constructor.
Qed.

Lemma Idle_step s s' : Inv s → Idle s → step s s' → Idle s'.
Proof.
  intros [Hr Ho Ht] [Hi Hs Hrd Htr] Hstep.
  destruct Hstep as [env s url | s file f Hc | s file e Hc
                    | env s f before after Hrd' | s p c e | s
                    | env s w data rest Hw Hin | s w message Hw | s w error Hw
                    | env s w data rest Hw Hout].
  - rewrite ingestURL_not_ready by done. simpl. rewrite !app_nil_r. by split.
  - rewrite ingestPDF_check_not_ready in Hc by done. discriminate.
  - by split.
  - rewrite Hrd in Hrd'. by destruct before.
  - by split.
  - split; simpl; try done.
    apply Forall_app; split; [done|]. destruct (worker (disp s)); by repeat constructor.
  - rewrite Hin in Hi. inversion Hi as [|? ? -> Hrest]; subst.
    split; simpl; try done.
    apply Forall_app; split; [done|]. rewrite worker_receive_init. by repeat constructor.
  - split; simpl; try done.
    apply Forall_app; split; [done|]. by repeat constructor.
  - split; simpl; try done.
    apply Forall_app; split; [done|]. constructor; [done|].
    unfold triggerCallback. destruct (callback_of _ _); by repeat constructor.
  - rewrite Hout in Ho, Hs.
    inversion Ho as [|? ? Hu _]; subst. inversion Hs as [|? ? _ Hs']; subst.
    split; simpl; try done.
    apply Forall_app; split; [done|].
    destruct (nullish data) eqn:Hn.
    + unfold handleWorkerMessage. rewrite Hn. constructor.
    + rewrite handleWorkerMessage_untyped by done. by repeat constructor.
Qed.

Lemma reachable_Idle s : reachable s → Idle s.
Proof.
  induction 1 as [created|s s' Hs IH Hstep]; [apply Idle_initial|].
  apply (Idle_step s); [by apply reachable_Inv|done..].
Qed.

(** X22.  In every reachable state of the Dispatcher and the Worker
    together the Worker has been sent nothing but the readiness probe,
    every message it has posted is a failure, no read of a file is pending,
    and the Dispatcher has read no file, posted no task, and called no
    callback except [onError] for a fault of the Worker. *)
Theorem system_stays_idle (s : System) :
  reachable s →
  (∀ m, m ∈ inbox s → m = init_probe) ∧
  (∀ m, m ∈ outbox s → get m "success" = VBool false) ∧
  reading s = [] ∧
  (∀ f, ReadBytes f ∉ trace s) ∧
  (∀ m t, WorkerPost m t ∈ trace s → m = init_probe) ∧
  (∀ c f data, Invoke c f data ∈ trace s →
               c = OnError ∧ get data "type" = VStr (lit "worker_error")).
Proof.
  intros [Hi Ho Hr Ht]%reachable_Idle.
  rewrite Forall_forall in Hi. rewrite Forall_forall in Ho.
  rewrite Forall_forall in Ht.
  split; [exact Hi|]. split; [exact Ho|]. split; [exact Hr|].
  split; [intros f Hin; exact (Ht _ Hin)|].
  split; [intros m t Hin; exact (Ht _ Hin)|].
  intros c f data Hin. exact (Ht _ Hin).
Qed.

Lemma system_stays_idle_sample :
  reachable (probed Fixture.offline) ∧
  inbox (probed Fixture.offline) = [] ∧
  (∀ m t, WorkerPost m t ∈ trace (probed Fixture.offline) → m = init_probe).
Proof.
  destruct (system_stays_idle (probed Fixture.offline) (probed_reachable Fixture.offline))
    as (_ & _ & _ & _ & H & _).
  exact (conj (probed_reachable Fixture.offline) (conj eq_refl H)).
Defined.

(** ** Beyond the specification's list: what the listener refuses *)

(** X23.  Only a File can be accepted by the PDF operation: for every value
    that is not a File the one message posted is a failure. *)
Theorem pdf_needs_a_File (env : Env) (file : JsVal) :
  (∀ f, file ≠ VFile f) →
  ∃ m, handlePdfParse env file = ([m], Normal tt) ∧
       get m "operation" = VStr (lit "pdf") ∧
       get m "success" = VBool false ∧
       get m "data" = VUndefined.
Proof.
  intros Hf. unfold handlePdfParse, prop.
  destruct (nullish file) eqn:Hn; simpl.
  { eexists. by repeat split. }
  destruct (is_str (get file "type") (lit "application/pdf")); simpl.
  2: { eexists. by repeat split. }
  destruct (Date_toISOString env (get file "lastModified")) as [iso|e]; simpl.
  2: { eexists. by repeat split. }
  assert (Ha : arrayBuffer env file = Throw (fault env (NotAFunction "arrayBuffer"))).
  { destruct file; try done. by destruct (Hf f). }
  rewrite Ha. simpl. eexists. by repeat split.
Qed.

Lemma pdf_needs_a_File_sample :
  let claimed := obj [ ("type", VStr (lit "application/pdf")); ("lastModified", VNum 0) ] in
  ∃ m, handlePdfParse Fixture.offline claimed = ([m], Normal tt) ∧
       get m "success" = VBool false.
Proof.
  intros claimed.
  destruct (pdf_needs_a_File Fixture.offline claimed) as (m & H1 & _ & H2 & _);
    [discriminate|].
  exists m. exact (conj H1 H2).
Defined.

(** X24.  A request for the operation [html] without an address, or with an
    empty one, and a request for the operation [pdf] without a file, are
    refused as invalid: the one reply is the failure [Invalid operation or
    missing data], and it names the operation asked for. *)
Theorem missing_data_is_refused (env : Env) (data : JsVal) (operation : jsstring) :
  get data "operation" = VStr operation →
  operation = lit "html" ∧ truthy (get data "url") = false
  ∨ operation = lit "pdf" ∧ truthy (get data "file") = false →
  worker_receive env data
  = [obj [ ("success", VBool false);
           ("error", VStr (lit "Invalid operation or missing data"));
           ("operation", VStr operation) ]].
Proof.
  intros Hop H. unfold worker_receive, on_message.
  assert (Hn : nullish data = false) by (by destruct data).
  rewrite Hn, Hop. simpl.
  destruct H as [[-> Hu]|[-> Hf]].
  - rewrite Hu. reflexivity.
  - rewrite Hf. reflexivity.
Qed.

Lemma missing_data_is_refused_sample :
  worker_receive Fixture.offline
    (obj [ ("operation", VStr (lit "html")); ("url", VStr empty_string) ])
  = [obj [ ("success", VBool false);
           ("error", VStr (lit "Invalid operation or missing data"));
           ("operation", VStr (lit "html")) ]].
Proof.
  apply (missing_data_is_refused Fixture.offline
           (obj [ ("operation", VStr (lit "html")); ("url", VStr empty_string) ])
           (lit "html")); [reflexivity|].
  left. split; reflexivity.
Defined.

Lemma construction_failure_is_silent_sample :
  let error := mkError (lit "SecurityError") (lit "The operation is insecure") in
  worker (new_Ingest (Throw error)).1 = None ∧
  ingestURL Fixture.offline
    (setCallbacks (new_Ingest (Throw error)).1 None None (Some 3%nat)) Fixture.address
  = ([], Throw not_ready).
Proof.
  intros error.
  destruct (construction_failure_is_silent Fixture.offline (Throw error) error
              None None (Some 3%nat) Fixture.address) as [_ H].
  destruct (H eq_refl) as (H1 & _ & H2 & _).
  exact (conj H1 H2).
Defined.
